(** * app-launcher/server.py: inventory merge, cache and launch resolver

    A shallow embedding of [src/app-launcher/server.py].  The Python
    module keeps one module-level cache cell [_APP_CACHE], reads the clock,
    the registry and the output of a PowerShell child process, and spawns
    processes.  The embedding makes all of this explicit:

    - a [world] record holds what the operating system answers during one
      call (platform, clock, registry contents, child process outcome,
      file-system tests, whether spawning a process raises);
    - the cache cell is threaded through as a [cache] value;
    - every process spawn and every registry key that is opened is logged
      as an [event];
    - a Python exception is the [Raise] outcome.

    Strings are Rocq [string]s and stand for ASCII text: on ASCII,
    [str.casefold] and [str.lower] both map [A-Z] to [a-z], [str.strip]
    removes the ten ASCII characters for which [str.isspace] holds, and the
    order on [str] is the lexicographic order on character codes. *)

From Stdlib Require Import Bool Arith ZArith QArith Lia List Ascii String.
From Stdlib Require Import Sorting.Sorted Sorting.Permutation.
Import ListNotations.

Open Scope string_scope.
Open Scope Z_scope.
Open Scope list_scope.

(* ================================================================= *)
(** ** Python string primitives on ASCII text *)

Module PyStr.

(** [c.isspace()] for an ASCII character: TAB, LF, VT, FF, CR, the four
    separators FS GS RS US, and the blank. *)
Definition isspace (c : ascii) : bool :=
  let n := nat_of_ascii c in
  ((9 <=? n) && (n <=? 13) || (28 <=? n) && (n <=? 32))%nat.

(** One character of [str.lower] / [str.casefold]. *)
Definition lower_char (c : ascii) : ascii :=
  let n := nat_of_ascii c in
  if ((65 <=? n) && (n <=? 90))%nat then ascii_of_nat (n + 32) else c.

Fixpoint lower (s : string) : string :=
  match s with
  | EmptyString => EmptyString
  | String c s' => String (lower_char c) (lower s')
  end.

(** [s.casefold()]; on ASCII text it is [s.lower()]. *)
Definition casefold (s : string) : string := lower s.

(** [s.lstrip(chars)], [s.rstrip(chars)] and [s.strip(chars)], the set
    of characters given as a predicate. *)
Fixpoint lstrip_by (p : ascii -> bool) (s : string) : string :=
  match s with
  | EmptyString => EmptyString
  | String c s' => if p c then lstrip_by p s' else s
  end.

Fixpoint rstrip_by (p : ascii -> bool) (s : string) : string :=
  match s with
  | EmptyString => EmptyString
  | String c s' =>
      match rstrip_by p s' with
      | EmptyString => if p c then EmptyString else String c EmptyString
      | r => String c r
      end
  end.

Definition strip_by (p : ascii -> bool) (s : string) : string :=
  rstrip_by p (lstrip_by p s).

(** [s.strip()] *)
Definition strip (s : string) : string := strip_by isspace s.

(** The double quote character, code 34. *)
Definition dquote : ascii := ascii_of_nat 34.

(** [s.strip(q)] with [q] the one-character string holding a double
    quote. *)
Definition strip_quotes (s : string) : string :=
  strip_by (fun c => Ascii.eqb c dquote) s.

(** [needle in hay] *)
Fixpoint contains (needle hay : string) : bool :=
  String.prefix needle hay ||
  match hay with
  | EmptyString => false
  | String _ hay' => contains needle hay'
  end.

(** [s.endswith(suffix)] *)
Fixpoint endswith (suffix s : string) : bool :=
  String.eqb suffix s ||
  match s with
  | EmptyString => false
  | String _ s' => endswith suffix s'
  end.

(** [s.split(",", 1)[0]]: the text before the first comma. *)
Fixpoint before_comma (s : string) : string :=
  match s with
  | EmptyString => EmptyString
  | String c s' =>
      if Ascii.eqb c ","%char then EmptyString else String c (before_comma s')
  end.

(** Truth value of a [str]. *)
Definition nonempty (s : string) : bool := negb (String.eqb s "").

End PyStr.

(* ================================================================= *)
(** ** [sorted] *)

(** [sorted(xs, key=key)] for string keys.  The sort is stable, so the
    result is the one of this insertion sort: an element is put in front
    of the first element whose key is not smaller than its own. *)
Section Sorted.
Context {A : Type} (key : A -> string).

Fixpoint insert_by (x : A) (l : list A) : list A :=
  match l with
  | [] => [x]
  | y :: l' =>
      if String.leb (key x) (key y) then x :: l else y :: insert_by x l'
  end.

Definition sorted_by (l : list A) : list A := fold_right insert_by [] l.
End Sorted.

(** Insertion into a strictly ascending list, an element already there is
    not added a second time. *)
Fixpoint set_insert (x : string) (l : list string) : list string :=
  match l with
  | [] => [x]
  | y :: l' =>
      match String.compare x y with
      | Lt => x :: l
      | Eq => l
      | Gt => y :: set_insert x l'
      end
  end.

(** [sorted(set(xs))]: the distinct elements of [xs] in ascending order. *)
Definition sorted_set (xs : list string) : list string :=
  fold_right set_insert [] xs.

(* ================================================================= *)
(** ** Application records *)

(** The dict built by both collectors: always the same seven keys.  A
    value that is [None] in Python is [None] here. *)
Record app : Type := mkApp {
  name : string;
  version : option string;
  publisher : option string;
  install_location : option string;
  exe_path : option string;
  app_id : option string;
  sources : list string
}.

(** The keys [_merge_apps] iterates over. *)
Inductive field : Type :=
  F_app_id | F_exe_path | F_version | F_publisher | F_install_location.

Definition merge_fields : list field :=
  [F_app_id; F_exe_path; F_version; F_publisher; F_install_location].

(** [d.get(field)] *)
Definition get (f : field) (d : app) : option string :=
  match f with
  | F_app_id => app_id d
  | F_exe_path => exe_path d
  | F_version => version d
  | F_publisher => publisher d
  | F_install_location => install_location d
  end.

(** [d[field] = v] *)
Definition set (f : field) (v : option string) (d : app) : app :=
  match f with
  | F_app_id =>
      mkApp (name d) (version d) (publisher d) (install_location d)
            (exe_path d) v (sources d)
  | F_exe_path =>
      mkApp (name d) (version d) (publisher d) (install_location d)
            v (app_id d) (sources d)
  | F_version =>
      mkApp (name d) v (publisher d) (install_location d)
            (exe_path d) (app_id d) (sources d)
  | F_publisher =>
      mkApp (name d) (version d) v (install_location d)
            (exe_path d) (app_id d) (sources d)
  | F_install_location =>
      mkApp (name d) (version d) (publisher d) v
            (exe_path d) (app_id d) (sources d)
  end.

Definition set_sources (l : list string) (d : app) : app :=
  mkApp (name d) (version d) (publisher d) (install_location d)
        (exe_path d) (app_id d) l.

(** Truth value of an optional string: [None] and [""] are false. *)
Definition truthy (v : option string) : bool :=
  match v with
  | Some s => PyStr.nonempty s
  | None => false
  end.

(** [_normalize_name] *)
Definition _normalize_name (n : string) : string :=
  PyStr.casefold (PyStr.strip n).

(** One round of the loop of [_merge_apps]. *)
Definition merge_field (incoming merged : app) (f : field) : app :=
  if negb (truthy (get f merged)) && truthy (get f incoming)
  then set f (get f incoming) merged
  else merged.

(** [_merge_apps] *)
Definition _merge_apps (primary incoming : app) : app :=
  let merged := fold_left (merge_field incoming) merge_fields primary in
  let merged_sources := sources merged ++ sources incoming in
  set_sources (sorted_set merged_sources) merged.

(* ================================================================= *)
(** ** The world one call runs in *)

(** A raised exception, kept as its text ([str(e)]). *)
Definition exn : Type := string.

Inductive outcome (A : Type) : Type :=
  | Ok (a : A)
  | Raise (e : exn).
Arguments Ok {A} a.
Arguments Raise {A} e.

(** What [subprocess.run(cmd, capture_output=True, text=True)] gives back. *)
Record completed : Type := mkCompleted {
  returncode : Z;
  stdout : string
}.

(** An element of the list [json.loads] returned.  Only a JSON object has
    a [get] method; its values are JSON strings or null ([Get-StartApps |
    Select-Object Name,AppID] prints string properties), on which [str] is
    the identity.  Any other element is kept as the name of its Python
    type ([int], [str], [list], ...). *)
Inductive json_item : Type :=
  | ItemDict (kv : list (string * option string))
  | ItemOther (type_name : string).

(** The value [json.loads] returned: an object, an array, or any other JSON
    value. *)
Inductive json_doc : Type :=
  | DocDict (kv : list (string * option string))
  | DocList (items : list json_item)
  | DocOther.

Inductive hive : Type := HKEY_LOCAL_MACHINE | HKEY_CURRENT_USER.

(** An open registry key of one installed program:
    [winreg.QueryValueEx(key, value_name)[0]], which raises when the value
    is not there.  The values read are strings. *)
Definition subkey : Type := string -> outcome string.

Record world : Type := mkWorld {
  (** [sys.platform] *)
  sys_platform : string;
  (** [winreg is not None] *)
  winreg_loaded : bool;
  (** [time.time()] *)
  time_time : Q;
  (** [datetime.now(timezone.utc).isoformat()] *)
  utc_isoformat : string;
  (** outcome of [subprocess.run] on a command line *)
  subprocess_run : list string -> outcome completed;
  (** [json.loads], [None] when it raises *)
  json_loads : string -> option json_doc;
  (** [winreg.OpenKey(root, path)] followed by the enumeration of its
      subkeys: [None] when opening raises, else one entry per index,
      [None] where [EnumKey] or [OpenKey] of the subkey raises *)
  open_uninstall : hive -> string -> option (list (option subkey));
  (** [os.path.expandvars] *)
  expandvars : string -> string;
  (** [os.path.exists] *)
  path_exists : string -> bool;
  (** [str(Path(p).parent)] *)
  path_parent : string -> string;
  (** [subprocess.Popen(argv, cwd=cwd)]: [None] when the process is
      created, the exception otherwise *)
  popen_fails : list string -> option string -> option exn
}.

(** What a call does to the outside. *)
Inductive event : Type :=
  | EvRun (argv : list string)
  | EvOpenKey (root : hive) (path : string)
  | EvPopen (argv : list string) (cwd : option string).

(** [_APP_CACHE] *)
Record cache : Type := mkCache {
  timestamp : Q;
  apps : list app
}.

(** The cell as the module creates it. *)
Definition _APP_CACHE : cache := mkCache 0 [].

Definition CACHE_TTL_SECONDS : Q := 300.

(** A computation: from the cache cell to the events, the cell afterwards
    and the result. *)
Definition M (A : Type) : Type := cache -> list event * cache * outcome A.

Definition ret {A} (a : A) : M A := fun c => ([], c, Ok a).

Definition raise {A} (e : exn) : M A := fun c => ([], c, Raise e).

Definition bind {A B} (m : M A) (k : A -> M B) : M B :=
  fun c =>
    match m c with
    | (ev, c', Ok a) =>
        match k a c' with
        | (ev', c'', r) => (ev ++ ev', c'', r)
        end
    | (ev, c', Raise e) => (ev, c', Raise e)
    end.

Definition emit (e : event) : M unit := fun c => ([e], c, Ok tt).

Definition read_cache : M cache := fun c => ([], c, Ok c).

Definition write_cache (c' : cache) : M unit := fun _ => ([], c', Ok tt).

Definition of_outcome {A} (r : outcome A) : M A :=
  match r with
  | Ok a => ret a
  | Raise e => raise e
  end.

Notation "x <- m ;; k" := (bind m (fun x => k))
  (at level 61, m at next level, right associativity).
Notation "m ;;; k" := (bind m (fun _ => k))
  (at level 61, right associativity).

Definition events_of {A} (r : list event * cache * outcome A) : list event :=
  fst (fst r).
Definition cache_of {A} (r : list event * cache * outcome A) : cache :=
  snd (fst r).
Definition value_of {A} (r : list event * cache * outcome A) : outcome A :=
  snd r.

(* ================================================================= *)
(** ** The two collectors *)

(** [_reg_get] *)
Definition _reg_get (key : subkey) (value_name : string) : option string :=
  match key value_name with
  | Ok value => Some value
  | Raise _ => None
  end.

(** [_parse_display_icon] *)
Definition _parse_display_icon (w : world) (display_icon : option string)
  : option string :=
  match display_icon with
  | None => None
  | Some icon =>
      if negb (PyStr.nonempty icon) then None
      else
        let raw := PyStr.strip_quotes (PyStr.strip icon) in
        let raw :=
          if PyStr.contains "," raw
          then PyStr.strip_quotes (PyStr.strip (PyStr.before_comma raw))
          else raw in
        let raw := expandvars w raw in
        if PyStr.endswith ".exe" (PyStr.lower raw) && path_exists w raw
        then Some raw
        else None
  end.

Definition uninstall_keys : list (hive * string) :=
  [ (HKEY_LOCAL_MACHINE,
     "SOFTWARE\Microsoft\Windows\CurrentVersion\Uninstall");
    (HKEY_LOCAL_MACHINE,
     "SOFTWARE\WOW6432Node\Microsoft\Windows\CurrentVersion\Uninstall");
    (HKEY_CURRENT_USER,
     "SOFTWARE\Microsoft\Windows\CurrentVersion\Uninstall") ].

(** The body of the inner [try] of [_get_registry_apps] for one subkey
    index: nothing when enumerating or opening raised, or when there is
    no display name. *)
Definition registry_entry (w : world) (entry : option subkey) : list app :=
  match entry with
  | None => []
  | Some sk =>
      let name := _reg_get sk "DisplayName" in
      match name with
      | Some n =>
          if PyStr.nonempty n then
            [ {| name := PyStr.strip n;
                 version := _reg_get sk "DisplayVersion";
                 publisher := _reg_get sk "Publisher";
                 install_location := _reg_get sk "InstallLocation";
                 exe_path :=
                   _parse_display_icon w (_reg_get sk "DisplayIcon");
                 app_id := None;
                 sources := ["registry"] |} ]
          else []
      | None => []
      end
  end.

(** The outer [try] for one uninstall key. *)
Definition registry_key (w : world) (k : hive * string) : M (list app) :=
  emit (EvOpenKey (fst k) (snd k)) ;;;
  match open_uninstall w (fst k) (snd k) with
  | None => ret []
  | Some entries => ret (flat_map (registry_entry w) entries)
  end.

Fixpoint registry_keys (w : world) (ks : list (hive * string))
  : M (list app) :=
  match ks with
  | [] => ret []
  | k :: ks' =>
      found <- registry_key w k ;;
      rest <- registry_keys w ks' ;;
      ret (found ++ rest)
  end.

(** [_get_registry_apps] *)
Definition _get_registry_apps (w : world) : M (list app) :=
  if negb (winreg_loaded w) || negb (sys_platform w =? "win32")%string
  then ret []
  else registry_keys w uninstall_keys.

Definition powershell_cmd : list string :=
  [ "powershell"; "-NoProfile"; "-Command";
    "Get-StartApps | Select-Object Name,AppID | ConvertTo-Json -Depth 3" ].

(** [item.get(key)] on a JSON object. *)
Fixpoint kv_get (key : string) (kv : list (string * option string))
  : option string :=
  match kv with
  | [] => None
  | (k, v) :: kv' => if (k =? key)%string then v else kv_get key kv'
  end.

(** The loop of [_get_start_apps] over the parsed items.  An item that is
    no object has no [get]: the attribute lookup raises [AttributeError],
    whose text names the type of the item, and nothing catches it. *)
Fixpoint start_items (data : list json_item) : outcome (list app) :=
  match data with
  | [] => Ok []
  | ItemOther type_name :: _ =>
      Raise ("'" ++ type_name ++ "' object has no attribute 'get'")%string
  | ItemDict kv :: data' =>
      let name := kv_get "Name" kv in
      let app_id := kv_get "AppID" kv in
      match start_items data' with
      | Raise e => Raise e
      | Ok rest =>
          match name, app_id with
          | Some n, Some a =>
              if PyStr.nonempty n && PyStr.nonempty a then
                Ok ({| name := PyStr.strip n;
                       version := None;
                       publisher := None;
                       install_location := None;
                       exe_path := None;
                       app_id := Some (PyStr.strip a);
                       sources := ["startapps"] |} :: rest)
              else Ok rest
          | _, _ => Ok rest
          end
      end
  end.

(** [_get_start_apps] *)
Definition _get_start_apps (w : world) : M (list app) :=
  if negb (sys_platform w =? "win32")%string then ret []
  else
    emit (EvRun powershell_cmd) ;;;
    result <- of_outcome (subprocess_run w powershell_cmd) ;;
    if negb (returncode result =? 0) then ret []
    else
      let raw := PyStr.strip (stdout result) in
      if negb (PyStr.nonempty raw) then ret []
      else
        match json_loads w raw with
        | None => ret []
        | Some (DocDict kv) => of_outcome (start_items [ItemDict kv])
        | Some (DocList items) => of_outcome (start_items items)
        | Some DocOther => ret []
        end.

(* ================================================================= *)
(** ** The cache *)

(** The dict [deduped]: keys in insertion order, a key that is assigned
    again keeps its place. *)
Fixpoint dict_get (k : string) (d : list (string * app)) : option app :=
  match d with
  | [] => None
  | (k', v) :: d' => if (k' =? k)%string then Some v else dict_get k d'
  end.

Fixpoint dict_set (k : string) (v : app) (d : list (string * app))
  : list (string * app) :=
  match d with
  | [] => [(k, v)]
  | (k', v') :: d' =>
      if (k' =? k)%string then (k, v) :: d' else (k', v') :: dict_set k v d'
  end.

(** One round of the loop over [apps] in [_get_all_apps]. *)
Definition dedupe_step (deduped : list (string * app)) (a : app)
  : list (string * app) :=
  let key := _normalize_name (name a) in
  match dict_get key deduped with
  | Some existing => dict_set key (_merge_apps existing a) deduped
  | None => dict_set key a deduped
  end.

Definition dedupe (l : list app) : list (string * app) :=
  fold_left dedupe_step l [].

(** From the collected records to the sorted result of [_get_all_apps]. *)
Definition build_snapshot (collected : list app) : list app :=
  sorted_by (fun a => PyStr.lower (name a)) (map snd (dedupe collected)).

(** [x < y] on rationals, as a boolean. *)
Definition Qltb (x y : Q) : bool := negb (Qle_bool y x).

Definition nonempty_list {A} (l : list A) : bool :=
  match l with
  | [] => false
  | _ :: _ => true
  end.

(** The test that guards the early return of [_get_all_apps]. *)
Definition cache_hit (refresh : bool) (now : Q) (c : cache) : bool :=
  negb refresh && nonempty_list (apps c)
  && Qltb (now - timestamp c) CACHE_TTL_SECONDS.

(** [_get_all_apps] *)
Definition _get_all_apps (w : world) (refresh : bool) : M (list app) :=
  let now := time_time w in
  c <- read_cache ;;
  if cache_hit refresh now c then ret (apps c)
  else
    started <- _get_start_apps w ;;
    registered <- _get_registry_apps w ;;
    let result := build_snapshot (started ++ registered) in
    write_cache (mkCache now result) ;;;
    ret result.

(* ================================================================= *)
(** ** The tool calls *)

(** The [arguments] dict of [call_tool]: [None] is a key that is absent;
    a value has the type the input schema gives it, [limit] being an
    integer. *)
Record arguments : Type := mkArgs {
  arg_query : option string;
  arg_limit : option Z;
  arg_include_registry : option bool;
  arg_include_start_apps : option bool;
  arg_refresh : option bool;
  arg_name : option string;
  arg_app_id : option string;
  arg_exact : option bool
}.

Definition no_arguments : arguments :=
  mkArgs None None None None None None None None.

(** One entry of ["matches"] in the reply to an ambiguous name. *)
Record option_entry : Type := mkOption {
  opt_name : string;
  opt_app_id : option string;
  opt_exe_path : option string
}.

(** The dict that [call_tool] serialises with [json.dumps]; ["success"] is
    [True] for [PApps] and [PLaunched] and [False] for the two others. *)
Inductive payload : Type :=
  | PError (error : string)
  | PErrorMatches (error : string) (matches : list option_entry)
  | PApps (count : nat) (generated_at : string) (listed : list app)
  | PLaunched (launched : list (string * string)).

(** [arguments.get(key) or default] for strings *)
Definition str_or (v : option string) (default : string) : string :=
  match v with
  | Some s => if PyStr.nonempty s then s else default
  | None => default
  end.

(** [int(arguments.get("limit") or 200)] *)
Definition limit_or (v : option Z) (default : Z) : Z :=
  match v with
  | Some n => if n =? 0 then default else n
  | None => default
  end.

(** [arguments.get(key, default)] read as a truth value *)
Definition flag_or (v : option bool) (default : bool) : bool :=
  match v with
  | Some b => b
  | None => default
  end.

(** [tag in sources] *)
Definition has_source (tag : string) (srcs : list string) : bool :=
  existsb (String.eqb tag) srcs.

(** The body of the loop of [list_installed_apps]: does the record reach
    [filtered.append(app)]? *)
Definition listed_app (query : string) (include_registry include_start : bool)
    (a : app) : bool :=
  let allowed :=
    (include_registry && has_source "registry" (sources a))
    || (include_start && has_source "startapps" (sources a)) in
  allowed
  && negb (PyStr.nonempty query
           && negb (PyStr.contains query (PyStr.casefold (name a)))).

(** The branch [name == "list_installed_apps"] *)
Definition list_installed_apps (w : world) (args : arguments) : M payload :=
  let query := PyStr.casefold (PyStr.strip (str_or (arg_query args) "")) in
  let limit := limit_or (arg_limit args) 200 in
  let include_registry := flag_or (arg_include_registry args) true in
  let include_start := flag_or (arg_include_start_apps args) true in
  let refresh := flag_or (arg_refresh args) false in
  all <- _get_all_apps w refresh ;;
  let filtered := filter (listed_app query include_registry include_start) all in
  let filtered := firstn (Z.to_nat (Z.max 1 limit)) filtered in
  ret (PApps (List.length filtered) (utc_isoformat w) filtered).

(** [subprocess.Popen(argv, cwd=cwd)] inside its [try]: the exception, if
    any, is handed to the [except] clause. *)
Definition popen (w : world) (argv : list string) (cwd : option string)
  : M (option exn) :=
  emit (EvPopen argv cwd) ;;;
  ret (popen_fails w argv cwd).

Definition apps_folder (id : string) : list string :=
  [ "explorer.exe"; ("shell:AppsFolder\" ++ id)%string ].

Definition summary (m : app) : option_entry :=
  mkOption (name m) (app_id m) (exe_path m).

Definition no_method_error : string :=
  "No launch method available for this app. Try using app_id from list_installed_apps.".

Definition ambiguous_error : string :=
  "Multiple matches found. Use a more specific name or app_id.".

(** The end of the branch, from [match = matches[0]] on. *)
Definition launch_match (w : world) (m : app) : M payload :=
  if truthy (app_id m) then
    let id := str_or (app_id m) "" in
    failed <- popen w (apps_folder id) None ;;
    match failed with
    | None =>
        ret (PLaunched
               [("name", name m); ("method", "startapps"); ("app_id", id)])
    | Some e => ret (PError ("Failed to launch AppID: " ++ e)%string)
    end
  else
    let exe := str_or (exe_path m) "" in
    if truthy (exe_path m) && path_exists w exe then
      failed <- popen w [exe] (Some (path_parent w exe)) ;;
      match failed with
      | None =>
          ret (PLaunched
                 [("name", name m); ("method", "exe"); ("exe_path", exe)])
      | Some e => ret (PError ("Failed to launch exe: " ++ e)%string)
      end
    else ret (PError no_method_error).

(** The list comprehension that selects [matches]. *)
Definition find_matches (exact : bool) (name_key : string) (all : list app)
  : list app :=
  if exact
  then filter (fun a => (_normalize_name (name a) =? name_key)%string) all
  else filter (fun a => PyStr.contains name_key (_normalize_name (name a))) all.

(** The branch [name == "launch_app"] *)
Definition launch_app (w : world) (args : arguments) : M payload :=
  let app_id := PyStr.strip (str_or (arg_app_id args) "") in
  let name_value := PyStr.strip (str_or (arg_name args) "") in
  let exact := flag_or (arg_exact args) false in
  let refresh := flag_or (arg_refresh args) false in
  if negb (PyStr.nonempty app_id) && negb (PyStr.nonempty name_value) then
    ret (PError "Provide name or app_id.")
  else if PyStr.nonempty app_id then
    failed <- popen w (apps_folder app_id) None ;;
    match failed with
    | None => ret (PLaunched [("app_id", app_id); ("method", "startapps")])
    | Some e => ret (PError ("Failed to launch AppID: " ++ e)%string)
    end
  else
    all <- _get_all_apps w refresh ;;
    let name_key := _normalize_name name_value in
    let matches := find_matches exact name_key all in
    match matches with
    | [] =>
        ret (PError ("No apps found matching '" ++ name_value ++ "'.")%string)
    | m :: more =>
        if (1 <? List.length matches)%nat then
          ret (PErrorMatches ambiguous_error (map summary (firstn 10 matches)))
        else launch_match w m
    end.

(** [call_tool] *)
Definition call_tool (w : world) (tool : string) (args : arguments)
  : M payload :=
  if negb (sys_platform w =? "win32")%string then
    ret (PError "This tool is only supported on Windows.")
  else if (tool =? "list_installed_apps")%string then
    list_installed_apps w args
  else if (tool =? "launch_app")%string then
    launch_app w args
  else ret (PError ("Unknown tool: " ++ tool)%string).


(* ================================================================= *)
(** ** The tools the server announces *)

(** One entry of ["properties"] in an input schema. *)
Record schema_property : Type := mkProperty {
  prop_name : string;
  prop_type : string;
  prop_description : string
}.

(** A [Tool]: its name, its description and the properties of its input
    schema (an object). *)
Record Tool : Type := mkTool {
  tool_name : string;
  tool_description : string;
  tool_properties : list schema_property
}.

(** [list_tools] *)
Definition list_tools : list Tool :=
  [ mkTool "list_installed_apps" "List installed apps (Windows)."
      [ mkProperty "query" "string" "Optional search filter (name contains).";
        mkProperty "limit" "number" "Max number of results (default 200).";
        mkProperty "include_registry" "boolean"
          "Include registry-installed apps (default true).";
        mkProperty "include_start_apps" "boolean"
          "Include Start Menu apps (default true).";
        mkProperty "refresh" "boolean" "Force refresh of cached app list." ];
    mkTool "launch_app" "Launch an installed app by name or AppID."
      [ mkProperty "name" "string" "App name to launch.";
        mkProperty "app_id" "string" "Start Menu AppID (preferred when known).";
        mkProperty "exact" "boolean" "Only match exact name (default false).";
        mkProperty "refresh" "boolean" "Force refresh of cached app list." ] ].

(* ================================================================= *)
(** ** Vocabulary of the statements *)

(** The order of [str]: strictly below, and below or equal. *)
Definition str_lt (s t : string) : Prop := String.compare s t = Lt.
Definition str_le (s t : string) : Prop := String.leb s t = true.

(** The value a field has after the loop of [_merge_apps]. *)
Definition merged_value (existing incoming : option string) : option string :=
  if truthy existing then existing
  else if truthy incoming then incoming
  else existing.


(** The order of the elements by their keys. *)
Definition key_le {A : Type} (key : A -> string) (a b : A) : Prop :=
  str_le (key a) (key b).

(** The identity key of a record. *)
Definition key_of (a : app) : string := _normalize_name (name a).

(** No two records of the list have the same key. *)
Definition distinct_keys (snapshot : list app) : Prop :=
  NoDup (map key_of snapshot).

(** The list is in the order of the lower-cased names. *)
Definition sorted_by_name (snapshot : list app) : Prop :=
  StronglySorted
    (fun a b => str_le (PyStr.lower (name a)) (PyStr.lower (name b)))
    snapshot.

(** Every entry of [deduped] sits under the key of its own name, and no key
    occurs twice. *)
Definition dict_ok (d : list (string * app)) : Prop :=
  NoDup (map fst d) /\ Forall (fun kv => key_of (snd kv) = fst kv) d.

(** What the collectors do and find, read off the world: the events of a
    run, and its result. *)
Definition is_win32 (w : world) : bool := (sys_platform w =? "win32")%string.

Definition start_outcome (w : world) : outcome (list app) :=
  match subprocess_run w powershell_cmd with
  | Raise e => Raise e
  | Ok result =>
      if negb (returncode result =? 0) then Ok []
      else if negb (PyStr.nonempty (PyStr.strip (stdout result))) then Ok []
      else
        match json_loads w (PyStr.strip (stdout result)) with
        | None => Ok []
        | Some (DocDict kv) => start_items [ItemDict kv]
        | Some (DocList items) => start_items items
        | Some DocOther => Ok []
        end
  end.

Definition start_events (w : world) : list event :=
  if is_win32 w then [EvRun powershell_cmd] else [].

Definition start_result (w : world) : outcome (list app) :=
  if is_win32 w then start_outcome w else Ok [].

Definition registry_found (w : world) (k : hive * string) : list app :=
  match open_uninstall w (fst k) (snd k) with
  | None => []
  | Some entries => flat_map (registry_entry w) entries
  end.

Definition registry_events (w : world) : list event :=
  if winreg_loaded w && is_win32 w
  then map (fun k => EvOpenKey (fst k) (snd k)) uninstall_keys
  else [].

Definition registry_result (w : world) : list app :=
  if winreg_loaded w && is_win32 w
  then flat_map (registry_found w) uninstall_keys
  else [].

(** The cache cells the module can hold: the initial one, and whatever a
    call of [_get_all_apps] leaves behind. *)
Inductive held : cache -> Prop :=
  | held_initial : held _APP_CACHE
  | held_after (w : world) (refresh : bool) (c : cache) :
      held c -> held (cache_of (_get_all_apps w refresh c)).

(* ================================================================= *)
(** ** Scenarios *)

(** A Windows host on which nothing is installed and every process
    starts. *)
Definition quiet_world : world :=
  {| sys_platform := "win32";
     winreg_loaded := true;
     time_time := 0;
     utc_isoformat := "2026-01-01T00:00:00+00:00";
     subprocess_run := fun _ => Ok (mkCompleted 0 "");
     json_loads := fun _ => None;
     open_uninstall := fun _ _ => None;
     expandvars := fun s => s;
     path_exists := fun _ => false;
     path_parent := fun s => s;
     popen_fails := fun _ _ => None |}.

(** The Start Menu lists [Foo] with the id [AppX]; the registry has [Foo]
    with the icon [C:\foo.exe], a file that exists. *)
Definition foo_item : json_item :=
  ItemDict [("Name", Some "Foo"); ("AppID", Some "AppX")].

Definition foo_subkey : subkey :=
  fun value_name =>
    if (value_name =? "DisplayName")%string then Ok "Foo"
    else if (value_name =? "DisplayIcon")%string then Ok "C:\foo.exe"
    else Raise "FileNotFoundError".

Definition foo_world : world :=
  {| sys_platform := "win32";
     winreg_loaded := true;
     time_time := 0;
     utc_isoformat := "2026-01-01T00:00:00+00:00";
     subprocess_run := fun _ => Ok (mkCompleted 0 "[foo]");
     json_loads := fun _ => Some (DocList [foo_item]);
     open_uninstall :=
       fun root _ =>
         match root with
         | HKEY_CURRENT_USER => Some [Some foo_subkey]
         | HKEY_LOCAL_MACHINE => None
         end;
     expandvars := fun s => s;
     path_exists := fun p => (p =? "C:\foo.exe")%string;
     path_parent := fun _ => "C:\";
     popen_fails := fun _ _ => None |}.

Definition foo_start : app :=
  {| name := "Foo"; version := None; publisher := None;
     install_location := None; exe_path := None; app_id := Some "AppX";
     sources := ["startapps"] |}.

Definition foo_registry : app :=
  {| name := "Foo"; version := None; publisher := None;
     install_location := None; exe_path := Some "C:\foo.exe"; app_id := None;
     sources := ["registry"] |}.

Definition foo_merged : app :=
  {| name := "Foo"; version := None; publisher := None;
     install_location := None; exe_path := Some "C:\foo.exe";
     app_id := Some "AppX";
     sources := ["registry"; "startapps"] |}.

(** The same host at another time. *)
Definition at_time (t : Q) (w : world) : world :=
  {| sys_platform := sys_platform w;
     winreg_loaded := winreg_loaded w;
     time_time := t;
     utc_isoformat := utc_isoformat w;
     subprocess_run := subprocess_run w;
     json_loads := json_loads w;
     open_uninstall := open_uninstall w;
     expandvars := expandvars w;
     path_exists := path_exists w;
     path_parent := path_parent w;
     popen_fails := popen_fails w |}.

(** The events of a rebuild on Windows with [winreg] loaded. *)
Definition rebuild_events : list event :=
  [ EvRun powershell_cmd;
    EvOpenKey HKEY_LOCAL_MACHINE
      "SOFTWARE\Microsoft\Windows\CurrentVersion\Uninstall";
    EvOpenKey HKEY_LOCAL_MACHINE
      "SOFTWARE\WOW6432Node\Microsoft\Windows\CurrentVersion\Uninstall";
    EvOpenKey HKEY_CURRENT_USER
      "SOFTWARE\Microsoft\Windows\CurrentVersion\Uninstall" ].

(** Every character of the string is in the set; true of the empty
    string. *)
Fixpoint all_chars (p : ascii -> bool) (s : string) : bool :=
  match s with
  | EmptyString => true
  | String c s' => p c && all_chars p s'
  end.

(** An argument that is absent, empty or made of whitespace only. *)
Definition blank (v : option string) : bool :=
  match v with
  | None => true
  | Some s => all_chars PyStr.isspace s
  end.

(** [needle] occurs in [hay]. *)
Definition substring_of (needle hay : string) : Prop :=
  exists before after : string, hay = (before ++ needle ++ after)%string.

(** The launcher events among the events of a run. *)
Definition is_launch (e : event) : bool :=
  match e with
  | EvPopen _ _ => true
  | _ => false
  end.

Definition launches {A} (r : list event * cache * outcome A) : list event :=
  filter is_launch (events_of r).

(** The value under ["method"] in a reply that reports a launch. *)
Definition method_of (p : payload) : option string :=
  match p with
  | PLaunched launched =>
      match find (fun kv => (fst kv =? "method")%string) launched with
      | Some kv => Some (snd kv)
      | None => None
      end
  | _ => None
  end.

(** Requests. *)
Definition launch_by_name (n : string) : arguments :=
  mkArgs None None None None None (Some n) None None.

Definition launch_by_id (id : string) : arguments :=
  mkArgs None None None None None None (Some id) None.

Definition launch_by_both (n id : string) : arguments :=
  mkArgs None None None None None (Some n) (Some id) None.

(** The registry record of [Foo] alone: PowerShell ends with code 1. *)
Definition registry_only_world : world :=
  {| sys_platform := "win32";
     winreg_loaded := true;
     time_time := 0;
     utc_isoformat := utc_isoformat foo_world;
     subprocess_run := fun _ => Ok (mkCompleted 1 "");
     json_loads := json_loads foo_world;
     open_uninstall := open_uninstall foo_world;
     expandvars := fun s => s;
     path_exists := path_exists foo_world;
     path_parent := path_parent foo_world;
     popen_fails := fun _ _ => None |}.

(** The same with no file [C:\foo.exe]: the record has no path either. *)
Definition bare_world : world :=
  {| sys_platform := "win32";
     winreg_loaded := true;
     time_time := 0;
     utc_isoformat := utc_isoformat foo_world;
     subprocess_run := fun _ => Ok (mkCompleted 1 "");
     json_loads := json_loads foo_world;
     open_uninstall := open_uninstall foo_world;
     expandvars := fun s => s;
     path_exists := fun _ => false;
     path_parent := path_parent foo_world;
     popen_fails := fun _ _ => None |}.

Definition foo_bare : app :=
  {| name := "Foo"; version := None; publisher := None;
     install_location := None; exe_path := None; app_id := None;
     sources := ["registry"] |}.

(** Two programs of the registry with [chrome] in their names. *)
Definition named_subkey (n : string) : subkey :=
  fun value_name =>
    if (value_name =? "DisplayName")%string then Ok n
    else Raise "FileNotFoundError".

Definition chrome_world : world :=
  {| sys_platform := "win32";
     winreg_loaded := true;
     time_time := 0;
     utc_isoformat := utc_isoformat foo_world;
     subprocess_run := fun _ => Ok (mkCompleted 0 "");
     json_loads := fun _ => None;
     open_uninstall :=
       fun root _ =>
         match root with
         | HKEY_CURRENT_USER =>
             Some [Some (named_subkey "Google Chrome");
                   Some (named_subkey "Chrome Remote Desktop")]
         | HKEY_LOCAL_MACHINE => None
         end;
     expandvars := fun s => s;
     path_exists := fun _ => false;
     path_parent := fun s => s;
     popen_fails := fun _ _ => None |}.

Definition registry_app (n : string) : app :=
  {| name := n; version := None; publisher := None;
     install_location := None; exe_path := None; app_id := None;
     sources := ["registry"] |}.

Definition list_with_limit (n : Z) : arguments :=
  mkArgs None (Some n) None None None None None None.

(** A record tagged the way the spec names the Start Menu. *)
Definition startmenu_tagged : app :=
  {| name := "Foo"; version := None; publisher := None;
     install_location := None; exe_path := None; app_id := Some "AppX";
     sources := ["registry"; "startmenu"] |}.

(** [foo_world] with no PowerShell to start: [subprocess.run] raises. *)
Definition no_powershell_world : world :=
  {| sys_platform := "win32";
     winreg_loaded := true;
     time_time := 0;
     utc_isoformat := utc_isoformat foo_world;
     subprocess_run :=
       fun _ => Raise "[WinError 2] The system cannot find the file specified";
     json_loads := json_loads foo_world;
     open_uninstall := open_uninstall foo_world;
     expandvars := fun s => s;
     path_exists := path_exists foo_world;
     path_parent := path_parent foo_world;
     popen_fails := fun _ _ => None |}.

(** [foo_world] with a number among the parsed items. *)
Definition odd_item_world : world :=
  {| sys_platform := "win32";
     winreg_loaded := true;
     time_time := 0;
     utc_isoformat := utc_isoformat foo_world;
     subprocess_run := subprocess_run foo_world;
     json_loads := fun _ => Some (DocList [foo_item; ItemOther "int"]);
     open_uninstall := open_uninstall foo_world;
     expandvars := fun s => s;
     path_exists := path_exists foo_world;
     path_parent := path_parent foo_world;
     popen_fails := fun _ _ => None |}.

(** A program of the registry with a display name and, when given, an
    icon. *)
Definition program_subkey (n : string) (icon : option string) : subkey :=
  fun value_name =>
    if (value_name =? "DisplayName")%string then Ok n
    else if (value_name =? "DisplayIcon")%string then
      match icon with
      | Some i => Ok i
      | None => Raise "FileNotFoundError"
      end
    else Raise "FileNotFoundError".

(** The Start Menu lists [Google Chrome]; the registry lists it too, with
    its icon, and [Chrome Remote Desktop] with another icon; both files
    exist. *)
Definition chrome_ids_world : world :=
  {| sys_platform := "win32";
     winreg_loaded := true;
     time_time := 0;
     utc_isoformat := utc_isoformat foo_world;
     subprocess_run := fun _ => Ok (mkCompleted 0 "[chrome]");
     json_loads :=
       fun _ =>
         Some (DocList
                 [ItemDict [("Name", Some "Google Chrome");
                            ("AppID", Some "Chrome")]]);
     open_uninstall :=
       fun root _ =>
         match root with
         | HKEY_CURRENT_USER =>
             Some [Some (program_subkey "Google Chrome"
                           (Some "C:\chrome.exe"));
                   Some (program_subkey "Chrome Remote Desktop"
                           (Some "C:\crd.exe"))]
         | HKEY_LOCAL_MACHINE => None
         end;
     expandvars := fun s => s;
     path_exists :=
       fun p => (p =? "C:\chrome.exe")%string || (p =? "C:\crd.exe")%string;
     path_parent := fun _ => "C:\";
     popen_fails := fun _ _ => None |}.

Definition chrome_app : app :=
  {| name := "Google Chrome"; version := None; publisher := None;
     install_location := None; exe_path := Some "C:\chrome.exe";
     app_id := Some "Chrome"; sources := ["registry"; "startapps"] |}.

Definition crd_app : app :=
  {| name := "Chrome Remote Desktop"; version := None; publisher := None;
     install_location := None; exe_path := Some "C:\crd.exe";
     app_id := None; sources := ["registry"] |}.

(** The Start Menu lists [Foo] and [Zeta]; the registry lists [FOO] with
    the icon [C:\foo.exe], [alpha] and [Beta]. *)
Definition mixed_world : world :=
  {| sys_platform := "win32";
     winreg_loaded := true;
     time_time := 0;
     utc_isoformat := utc_isoformat foo_world;
     subprocess_run := fun _ => Ok (mkCompleted 0 "[foo, zeta]");
     json_loads :=
       fun _ =>
         Some (DocList
                 [foo_item;
                  ItemDict [("Name", Some "Zeta"); ("AppID", Some "Z1")]]);
     open_uninstall :=
       fun root _ =>
         match root with
         | HKEY_CURRENT_USER =>
             Some [Some (program_subkey "FOO" (Some "C:\foo.exe"));
                   Some (program_subkey "alpha" None);
                   Some (program_subkey "Beta" None)]
         | HKEY_LOCAL_MACHINE => None
         end;
     expandvars := fun s => s;
     path_exists := fun p => (p =? "C:\foo.exe")%string;
     path_parent := fun _ => "C:\";
     popen_fails := fun _ _ => None |}.

Definition zeta_app : app :=
  {| name := "Zeta"; version := None; publisher := None;
     install_location := None; exe_path := None; app_id := Some "Z1";
     sources := ["startapps"] |}.

(** The snapshot of [mixed_world]: [Foo] and [FOO] are one record. *)
Definition mixed_snapshot : list app :=
  [registry_app "alpha"; registry_app "Beta"; foo_merged; zeta_app].

(* ================================================================= *)
(** ** Vocabulary of the further statements *)

(** The records of a list that have the key [k], in their order. *)
Definition group (k : string) (l : list app) : list app :=
  filter (fun a => (key_of a =? k)%string) l.

(** The records of a list that have the key [k], merged from the left. *)
Definition merged_group (k : string) (l : list app) : option app :=
  match group k l with
  | [] => None
  | first :: rest => Some (fold_left _merge_apps rest first)
  end.

(** A record is tagged: its sources are the tag of one collector, or the
    tags of both in ascending order. *)
Definition tagged (a : app) : Prop :=
  sources a = ["registry"]
  \/ sources a = ["startapps"]
  \/ sources a = ["registry"; "startapps"].

(** The registry lists [Chrome] and [Chrome Remote Desktop]. *)
Definition chrome_exact_world : world :=
  {| sys_platform := "win32";
     winreg_loaded := true;
     time_time := 0;
     utc_isoformat := utc_isoformat foo_world;
     subprocess_run := fun _ => Ok (mkCompleted 0 "");
     json_loads := fun _ => None;
     open_uninstall :=
       fun root _ =>
         match root with
         | HKEY_CURRENT_USER =>
             Some [Some (named_subkey "Chrome");
                   Some (named_subkey "Chrome Remote Desktop")]
         | HKEY_LOCAL_MACHINE => None
         end;
     expandvars := fun s => s;
     path_exists := fun _ => false;
     path_parent := fun s => s;
     popen_fails := fun _ _ => None |}.

(** A host on which no process can be created. *)
Definition no_spawn_world : world :=
  {| sys_platform := "win32";
     winreg_loaded := true;
     time_time := 0;
     utc_isoformat := utc_isoformat foo_world;
     subprocess_run := subprocess_run foo_world;
     json_loads := json_loads foo_world;
     open_uninstall := open_uninstall foo_world;
     expandvars := fun s => s;
     path_exists := path_exists foo_world;
     path_parent := path_parent foo_world;
     popen_fails := fun _ _ => Some "Access is denied" |}.
(* ================================================================= *)
(** * Properties *)

(** ** The primitives on small inputs *)

Example strip_blanks : PyStr.strip "  Foo Bar  " = "Foo Bar".
Proof. reflexivity. Qed.

Example strip_all_blank : PyStr.strip "   " = "".
Proof. reflexivity. Qed.

Example normalize_name : _normalize_name " Google Chrome " = "google chrome".
Proof. reflexivity. Qed.

Example contains_inside : PyStr.contains "chrome" "google chrome" = true.
Proof. reflexivity. Qed.

Example contains_missing : PyStr.contains "chrome " "google chrome" = false.
Proof. reflexivity. Qed.

Example endswith_exe : PyStr.endswith ".exe" (PyStr.lower "C:\Foo.EXE") = true.
Proof. reflexivity. Qed.

Example sorted_set_union :
  sorted_set (["startapps"; "registry"] ++ ["registry"])
  = ["registry"; "startapps"].
Proof. reflexivity. Qed.

(** Equal keys stay in the order they came in. *)
Example sorted_by_stable :
  sorted_by PyStr.lower ["b"; "A"; "a"; "B"] = ["A"; "a"; "b"; "B"].
Proof. reflexivity. Qed.

(** A quoted icon path with an icon index. *)
Example parse_display_icon_quoted :
  _parse_display_icon foo_world
    (Some (String PyStr.dquote "C:\foo.exe" ++ String PyStr.dquote ",0")%string)
  = Some "C:\foo.exe".
Proof. reflexivity. Qed.

Example limit_zero_is_default : limit_or (Some 0) 200 = 200.
Proof. reflexivity. Qed.

(** ** The order on strings *)


Lemma ascii_compare_refl (a : ascii) : Ascii.compare a a = Eq.
Proof. unfold Ascii.compare. apply N.compare_refl. Qed.

Lemma ascii_compare_lt_trans (a b c : ascii) :
  Ascii.compare a b = Lt -> Ascii.compare b c = Lt -> Ascii.compare a c = Lt.
Proof.
  unfold Ascii.compare. rewrite !N.compare_lt_iff. apply N.lt_trans.
Qed.

Lemma str_compare_refl (s : string) : String.compare s s = Eq.
Proof.
  induction s as [|a s IH]; simpl; [reflexivity|].
  now rewrite ascii_compare_refl.
Qed.

Lemma str_compare_eq (s t : string) : String.compare s t = Eq <-> s = t.
Proof.
  split; [apply String.compare_eq_iff|intros ->; apply str_compare_refl].
Qed.

Lemma str_lt_trans (s t u : string) : str_lt s t -> str_lt t u -> str_lt s u.
Proof.
  unfold str_lt. revert t u.
  induction s as [|a s IH]; intros [|b t] [|c u]; simpl;
    try discriminate; try reflexivity.
  destruct (Ascii.compare a b) eqn:Hab; try discriminate;
    destruct (Ascii.compare b c) eqn:Hbc; try discriminate; intros Hst Htu.
  - apply Ascii.compare_eq_iff in Hab, Hbc. subst.
    rewrite ascii_compare_refl. eauto.
  - apply Ascii.compare_eq_iff in Hab. subst. now rewrite Hbc.
  - apply Ascii.compare_eq_iff in Hbc. subst. now rewrite Hab.
  - now rewrite (ascii_compare_lt_trans _ _ _ Hab Hbc).
Qed.

Lemma str_lt_irrefl (s : string) : ~ str_lt s s.
Proof. unfold str_lt. now rewrite str_compare_refl. Qed.

Lemma str_compare_gt_lt (s t : string) :
  String.compare s t = Gt -> str_lt t s.
Proof.
  unfold str_lt. rewrite (String.compare_antisym t s). now intros ->.
Qed.

Lemma str_le_cases (s t : string) : str_le s t <-> str_lt s t \/ s = t.
Proof.
  unfold str_le, str_lt, String.leb.
  destruct (String.compare s t) eqn:H.
  - apply str_compare_eq in H. intuition.
  - intuition.
  - split; [discriminate|]. intros [?| ->]; [discriminate|].
    now rewrite str_compare_refl in H.
Qed.

Lemma str_le_refl (s : string) : str_le s s.
Proof. apply str_le_cases. now right. Qed.

Lemma str_le_trans (s t u : string) : str_le s t -> str_le t u -> str_le s u.
Proof.
  rewrite !str_le_cases. intros [Hst| ->] [Htu| ->]; auto.
  left. eapply str_lt_trans; eauto.
Qed.

Lemma str_leb_false (s t : string) : String.leb s t = false -> str_lt t s.
Proof.
  unfold String.leb. destruct (String.compare s t) eqn:H; try discriminate.
  intros _. now apply str_compare_gt_lt.
Qed.

(** ** [sorted(set(xs))] is the ascending list of the distinct elements *)

Lemma set_insert_In (x y : string) (l : list string) :
  In y (set_insert x l) <-> y = x \/ In y l.
Proof.
  induction l as [|z l IH]; simpl.
  - intuition.
  - destruct (String.compare x z) eqn:H; simpl.
    + apply String.compare_eq_iff in H. subst. intuition.
    + intuition.
    + rewrite IH. intuition.
Qed.

Lemma set_insert_sorted (x : string) (l : list string) :
  StronglySorted str_lt l -> StronglySorted str_lt (set_insert x l).
Proof.
  induction 1 as [|z l Hs IH Hall]; simpl.
  - repeat constructor.
  - destruct (String.compare x z) eqn:H.
    + now constructor.
    + constructor; [now constructor|].
      constructor; [exact H|].
      eapply Forall_impl; [|exact Hall]. intros u Hu.
      eapply str_lt_trans; eauto.
    + constructor; [exact IH|].
      apply Forall_forall. intros u Hu. apply set_insert_In in Hu.
      destruct Hu as [->|Hu].
      * now apply str_compare_gt_lt.
      * rewrite Forall_forall in Hall. auto.
Qed.

Lemma sorted_set_In (y : string) (xs : list string) :
  In y (sorted_set xs) <-> In y xs.
Proof.
  induction xs as [|x xs IH]; simpl; [tauto|].
  rewrite set_insert_In, IH. intuition.
Qed.

Lemma sorted_set_sorted (xs : list string) :
  StronglySorted str_lt (sorted_set xs).
Proof.
  induction xs as [|x xs IH]; simpl; [constructor|].
  now apply set_insert_sorted.
Qed.

(** ** [_merge_apps] *)

Lemma merge_field_name (incoming merged : app) (f : field) :
  name (merge_field incoming merged f) = name merged.
Proof.
  unfold merge_field.
  destruct (negb (truthy (get f merged)) && truthy (get f incoming));
    [destruct f|]; reflexivity.
Qed.

Lemma merge_field_sources (incoming merged : app) (f : field) :
  sources (merge_field incoming merged f) = sources merged.
Proof.
  unfold merge_field.
  destruct (negb (truthy (get f merged)) && truthy (get f incoming));
    [destruct f|]; reflexivity.
Qed.

Lemma get_set_same (f : field) (v : option string) (d : app) :
  get f (set f v d) = v.
Proof. destruct f; reflexivity. Qed.

Lemma get_set_other (f g : field) (v : option string) (d : app) :
  f <> g -> get g (set f v d) = get g d.
Proof. destruct f, g; intros H; try reflexivity; contradiction. Qed.

Lemma get_merge_field_same (incoming merged : app) (f : field) :
  get f (merge_field incoming merged f)
  = merged_value (get f merged) (get f incoming).
Proof.
  unfold merge_field, merged_value.
  destruct (truthy (get f merged)), (truthy (get f incoming)); simpl;
    try reflexivity.
  apply get_set_same.
Qed.

Lemma get_merge_field_other (incoming merged : app) (f g : field) :
  f <> g -> get g (merge_field incoming merged f) = get g merged.
Proof.
  intros H. unfold merge_field.
  destruct (negb (truthy (get f merged)) && truthy (get f incoming));
    [now apply get_set_other|reflexivity].
Qed.

Lemma get_set_sources (f : field) (l : list string) (d : app) :
  get f (set_sources l d) = get f d.
Proof. destruct f; reflexivity. Qed.

Lemma merge_apps_get (primary incoming : app) (f : field) :
  get f (_merge_apps primary incoming)
  = merged_value (get f primary) (get f incoming).
Proof.
  unfold _merge_apps. rewrite get_set_sources.
  unfold merge_fields. cbn [fold_left].
  destruct f;
    repeat first [ rewrite get_merge_field_same
                 | rewrite get_merge_field_other by discriminate ];
    reflexivity.
Qed.

Lemma merge_apps_name (primary incoming : app) :
  name (_merge_apps primary incoming) = name primary.
Proof.
  unfold _merge_apps, merge_fields. cbn [fold_left set_sources name].
  now rewrite !merge_field_name.
Qed.

Lemma merge_apps_sources (primary incoming : app) :
  sources (_merge_apps primary incoming)
  = sorted_set (sources primary ++ sources incoming).
Proof.
  unfold _merge_apps, merge_fields. cbn [fold_left set_sources sources].
  now rewrite !merge_field_sources.
Qed.

(** The two records of the example are what the collectors build. *)
Lemma foo_records :
  start_items [foo_item] = Ok [foo_start]
  /\ registry_entry foo_world (Some foo_subkey) = [foo_registry].
Proof. split; reflexivity. Qed.

(** C1, as the code has it.  For every two records [primary] (processed
    first) and [incoming] that [_merge_apps] joins, and each of the fields
    app_id, exe_path, version, publisher and install_location: the merged
    record keeps the value of [primary] when that is non-empty, has the
    value of [incoming] when that of [primary] is empty and that of
    [incoming] is not, and keeps the (empty) value of [primary] otherwise;
    it has the name of [primary]; its sources are strictly ascending and
    are exactly the sources of the two records.  The Start Menu record
    (Foo, AppX, no path) merged with the registry record (Foo,
    C:\foo.exe) is (Foo, AppX, C:\foo.exe) with sources registry and
    startapps.  Two records with the same key that reach [_get_all_apps]
    one after the other are merged this way into the one record of the
    snapshot. *)
Theorem merge_apps_precedence :
  (forall (primary incoming : app) (f : field),
      get f (_merge_apps primary incoming)
      = if truthy (get f primary) then get f primary
        else if truthy (get f incoming) then get f incoming
        else get f primary)
  /\ (forall primary incoming : app,
         name (_merge_apps primary incoming) = name primary)
  /\ (forall primary incoming : app,
         StronglySorted str_lt (sources (_merge_apps primary incoming)))
  /\ (forall (primary incoming : app) (s : string),
         In s (sources (_merge_apps primary incoming))
         <-> In s (sources primary) \/ In s (sources incoming))
  /\ (forall first second : app,
         _normalize_name (name first) = _normalize_name (name second) ->
         build_snapshot [first; second] = [_merge_apps first second])
  /\ _merge_apps foo_start foo_registry = foo_merged.
Proof.
  split; [|split; [|split; [|split; [|split]]]].
  - apply merge_apps_get.
  - apply merge_apps_name.
  - intros. rewrite merge_apps_sources. apply sorted_set_sorted.
  - intros. rewrite merge_apps_sources, sorted_set_In.
    split; [apply in_app_or|apply in_or_app].
  - intros first second Hkey.
    unfold build_snapshot, dedupe. cbn [fold_left].
    unfold dedupe_step at 2. cbn [dict_get dict_set].
    unfold dedupe_step. cbn [dict_get]. rewrite Hkey, String.eqb_refl.
    cbn [dict_set]. now rewrite String.eqb_refl.
  - reflexivity.
Qed.

Lemma merge_apps_precedence_witness :
  build_snapshot [foo_start; foo_registry] = [foo_merged].
Proof.
  apply (proj1 (proj2 (proj2 (proj2 (proj2 merge_apps_precedence))))
           foo_start foo_registry).
  reflexivity.
Defined.

(** C1, as the spec words it, fails on the tag: the Start Menu collector
    marks its records [startapps], so the merged sources are registry and
    startapps, not registry and startmenu. *)
Lemma merge_tie_break_source_tag :
  start_items [foo_item] = Ok [foo_start]
  /\ registry_entry foo_world (Some foo_subkey) = [foo_registry]
  /\ sources (_merge_apps foo_start foo_registry) = ["registry"; "startapps"]
  /\ sources (_merge_apps foo_start foo_registry) <> ["registry"; "startmenu"].
Proof.
  split; [reflexivity|]. split; [reflexivity|]. split; [reflexivity|].
  discriminate.
Qed.

(** ** [sorted] with a key *)

Section SortedBy.
Context {A : Type} (key : A -> string).

Lemma insert_by_perm (x : A) (l : list A) :
  Permutation (insert_by key x l) (x :: l).
Proof.
  induction l as [|y l IH]; simpl; [reflexivity|].
  destruct (String.leb (key x) (key y)); [reflexivity|].
  rewrite IH. apply perm_swap.
Qed.

Lemma sorted_by_perm (l : list A) : Permutation (sorted_by key l) l.
Proof.
  induction l as [|x l IH]; simpl; [reflexivity|].
  now rewrite insert_by_perm, IH.
Qed.

Lemma insert_by_sorted (x : A) (l : list A) :
  StronglySorted (key_le key) l ->
  StronglySorted (key_le key) (insert_by key x l).
Proof.
  induction 1 as [|y l Hs IH Hall]; simpl.
  - repeat constructor.
  - destruct (String.leb (key x) (key y)) eqn:Hxy.
    + constructor; [now constructor|].
      constructor; [exact Hxy|].
      eapply Forall_impl; [|exact Hall]. intros z Hz.
      eapply str_le_trans; [exact Hxy|exact Hz].
    + constructor; [exact IH|].
      apply Forall_forall. intros z Hz.
      apply (Permutation_in _ (insert_by_perm x l)) in Hz.
      destruct Hz as [<-|Hz].
      * apply str_le_cases. left. now apply str_leb_false.
      * rewrite Forall_forall in Hall. auto.
Qed.

Lemma sorted_by_sorted (l : list A) :
  StronglySorted (key_le key) (sorted_by key l).
Proof.
  induction l as [|x l IH]; simpl; [constructor|].
  now apply insert_by_sorted.
Qed.
End SortedBy.

(** ** The dict [deduped] *)

Lemma dict_get_None (k : string) (d : list (string * app)) :
  dict_get k d = None -> ~ In k (map fst d).
Proof.
  induction d as [|[k' v] d IH]; simpl; [tauto|].
  destruct (String.eqb_spec k' k); [discriminate|].
  intros H [?|?]; [contradiction|]. now apply IH.
Qed.

Lemma dict_set_keys_present (k : string) (v e : app) (d : list (string * app)) :
  dict_get k d = Some e -> map fst (dict_set k v d) = map fst d.
Proof.
  induction d as [|[k' v'] d IH]; simpl; [discriminate|].
  destruct (String.eqb_spec k' k); simpl; [now subst|].
  intros H. now rewrite IH.
Qed.

Lemma dict_set_keys_absent (k : string) (v : app) (d : list (string * app)) :
  dict_get k d = None -> map fst (dict_set k v d) = map fst d ++ [k].
Proof.
  induction d as [|[k' v'] d IH]; simpl; [reflexivity|].
  destruct (String.eqb_spec k' k); simpl; [discriminate|].
  intros H. now rewrite IH.
Qed.

Lemma dict_set_Forall (P : string * app -> Prop) (k : string) (v : app)
    (d : list (string * app)) :
  P (k, v) -> Forall P d -> Forall P (dict_set k v d).
Proof.
  intros Hk. induction 1 as [|[k' v'] d Hx Hd IH]; simpl.
  - now constructor.
  - destruct (k' =? k)%string; constructor; auto.
Qed.

Lemma dict_get_key (k : string) (e : app) (d : list (string * app)) :
  Forall (fun kv => key_of (snd kv) = fst kv) d ->
  dict_get k d = Some e -> _normalize_name (name e) = k.
Proof.
  induction 1 as [|[k' v'] d Hx Hd IH]; simpl; [discriminate|].
  destruct (String.eqb_spec k' k); [|exact IH].
  intros [= <-]. now subst.
Qed.

Lemma dedupe_step_ok (d : list (string * app)) (a : app) :
  dict_ok d -> dict_ok (dedupe_step d a).
Proof.
  intros [Hnd Hk]. unfold dedupe_step.
  destruct (dict_get (_normalize_name (name a)) d) as [e|] eqn:Hget; split.
  - now rewrite (dict_set_keys_present _ _ e).
  - apply dict_set_Forall; [|exact Hk].
    unfold key_of. cbn [snd fst]. rewrite merge_apps_name.
    now apply (dict_get_key _ _ _ Hk Hget).
  - rewrite dict_set_keys_absent by exact Hget.
    apply NoDup_app.
    + exact Hnd.
    + repeat constructor. simpl. tauto.
    + intros k Hin [<-|[]]. now apply dict_get_None in Hget.
  - apply dict_set_Forall; [reflexivity|exact Hk].
Qed.

Lemma fold_dedupe_ok (l : list app) (d : list (string * app)) :
  dict_ok d -> dict_ok (fold_left dedupe_step l d).
Proof.
  revert d. induction l as [|a l IH]; simpl; intros d Hd; [exact Hd|].
  apply IH. now apply dedupe_step_ok.
Qed.

Lemma dedupe_ok (l : list app) : dict_ok (dedupe l).
Proof.
  apply fold_dedupe_ok. split; constructor.
Qed.

Lemma dict_values_keys (d : list (string * app)) :
  Forall (fun kv => key_of (snd kv) = fst kv) d ->
  map key_of (map snd d) = map fst d.
Proof.
  induction 1 as [|kv d Hx Hd IH]; simpl; [reflexivity|].
  now rewrite Hx, IH.
Qed.

(** ** The snapshot a rebuild produces *)

Lemma build_snapshot_distinct (collected : list app) :
  distinct_keys (build_snapshot collected).
Proof.
  unfold distinct_keys, build_snapshot.
  destruct (dedupe_ok collected) as [Hnd Hk].
  eapply Permutation_NoDup.
  - apply Permutation_map. symmetry. apply sorted_by_perm.
  - now rewrite dict_values_keys.
Qed.

Lemma build_snapshot_sorted (collected : list app) :
  sorted_by_name (build_snapshot collected).
Proof.
  unfold sorted_by_name, build_snapshot.
  apply (sorted_by_sorted (fun a => PyStr.lower (name a))).
Qed.

(** An exact name selects at most one record of a list with distinct
    keys. *)
Lemma exact_matches_unique (name_key : string) (snapshot : list app) :
  distinct_keys snapshot ->
  (List.length (find_matches true name_key snapshot) <= 1)%nat.
Proof.
  unfold distinct_keys, find_matches.
  induction snapshot as [|a l IH]; simpl; intros Hnd; [lia|].
  inversion Hnd as [|k ks Hnotin Hnd']; subst.
  destruct (String.eqb_spec (_normalize_name (name a)) name_key) as [Heq|Hne].
  - simpl. enough (Hnil : filter
        (fun a0 => (_normalize_name (name a0) =? name_key)%string) l = []).
    { rewrite Hnil. simpl. lia. }
    destruct (filter _ l) as [|b l'] eqn:Hf; [reflexivity|].
    exfalso. apply Hnotin.
    assert (Hb : In b (filter
        (fun a0 => (_normalize_name (name a0) =? name_key)%string) l))
      by (rewrite Hf; now left).
    apply filter_In in Hb. destruct Hb as [Hin Hb].
    apply String.eqb_eq in Hb. unfold key_of. rewrite Heq, <- Hb.
    now apply (in_map (fun x => _normalize_name (name x))).
  - now apply IH.
Qed.

(** ** Running the collectors *)

Lemma bind_run {A B} (m : M A) (k : A -> M B) (c c' : cache)
    (ev : list event) (a : A) :
  m c = (ev, c', Ok a) ->
  bind m k c = (ev ++ events_of (k a c'), cache_of (k a c'), value_of (k a c')).
Proof.
  intros H. unfold bind. rewrite H.
  now destruct (k a c') as [[ev' c''] r].
Qed.

Lemma bind_raise {A B} (m : M A) (k : A -> M B) (c c' : cache)
    (ev : list event) (e : exn) :
  m c = (ev, c', Raise e) -> bind m k c = (ev, c', Raise e).
Proof. intros H. unfold bind. now rewrite H. Qed.

Lemma start_apps_run (w : world) (c : cache) :
  _get_start_apps w c = (start_events w, c, start_result w).
Proof.
  unfold _get_start_apps, start_events, start_result, start_outcome, is_win32.
  destruct (sys_platform w =? "win32")%string; [|reflexivity].
  cbn [negb]. unfold bind, emit, of_outcome.
  destruct (subprocess_run w powershell_cmd) as [result|e]; [|reflexivity].
  cbn [ret]. destruct (negb (returncode result =? 0)); [reflexivity|].
  destruct (negb (PyStr.nonempty (PyStr.strip (stdout result))));
    [reflexivity|].
  destruct (json_loads w (PyStr.strip (stdout result))) as [[kv|items|]|];
    try reflexivity.
  - destruct (start_items [ItemDict kv]); reflexivity.
  - destruct (start_items items); reflexivity.
Qed.

Lemma registry_key_run (w : world) (k : hive * string) (c : cache) :
  registry_key w k c = ([EvOpenKey (fst k) (snd k)], c, Ok (registry_found w k)).
Proof.
  unfold registry_key, registry_found, bind, emit.
  destruct (open_uninstall w (fst k) (snd k)); reflexivity.
Qed.

Lemma registry_keys_run (w : world) (ks : list (hive * string)) (c : cache) :
  registry_keys w ks c
  = (map (fun k => EvOpenKey (fst k) (snd k)) ks, c,
     Ok (flat_map (registry_found w) ks)).
Proof.
  induction ks as [|k ks IH]; [reflexivity|].
  cbn [registry_keys]. unfold bind at 1. rewrite registry_key_run.
  unfold bind. rewrite IH. cbn [ret]. simpl. now rewrite app_nil_r.
Qed.

Lemma registry_apps_run (w : world) (c : cache) :
  _get_registry_apps w c = (registry_events w, c, Ok (registry_result w)).
Proof.
  unfold _get_registry_apps, registry_events, registry_result, is_win32.
  destruct (winreg_loaded w), (sys_platform w =? "win32")%string;
    cbn [negb orb andb]; try reflexivity.
  apply registry_keys_run.
Qed.

(** [_get_all_apps], run: the early return, a collector that raises, or a
    new snapshot. *)
Lemma get_all_apps_run (w : world) (refresh : bool) (c : cache) :
  _get_all_apps w refresh c
  = if cache_hit refresh (time_time w) c then ([], c, Ok (apps c))
    else
      match start_result w with
      | Raise e => (start_events w, c, Raise e)
      | Ok started =>
          let result := build_snapshot (started ++ registry_result w) in
          (start_events w ++ registry_events w,
           mkCache (time_time w) result, Ok result)
      end.
Proof.
  unfold _get_all_apps. unfold bind at 1, read_cache.
  destruct (cache_hit refresh (time_time w) c); [reflexivity|].
  cbn [List.app]. unfold bind at 1. rewrite start_apps_run.
  destruct (start_result w) as [started|e]; [|reflexivity].
  unfold bind at 1. rewrite registry_apps_run.
  unfold bind, write_cache, ret. cbn. now rewrite !app_nil_r.
Qed.

(** ** The cache test *)

Lemma Qltb_lt (x y : Q) : Qltb x y = true <-> (x < y)%Q.
Proof.
  unfold Qltb. rewrite negb_true_iff, <- not_true_iff_false, Qle_bool_iff.
  split; [apply Qnot_le_lt|apply Qlt_not_le].
Qed.

Lemma nonempty_list_true {A} (l : list A) : nonempty_list l = true <-> l <> [].
Proof. destruct l; simpl; split; congruence. Qed.

Lemma cache_hit_true (refresh : bool) (now : Q) (c : cache) :
  cache_hit refresh now c = true
  <-> refresh = false /\ apps c <> []
      /\ (now - timestamp c < CACHE_TTL_SECONDS)%Q.
Proof.
  unfold cache_hit.
  rewrite !andb_true_iff, negb_true_iff, nonempty_list_true, Qltb_lt.
  tauto.
Qed.

Lemma cache_hit_false (refresh : bool) (now : Q) (c : cache) :
  cache_hit refresh now c = false
  <-> refresh = true \/ apps c = []
      \/ (CACHE_TTL_SECONDS <= now - timestamp c)%Q.
Proof.
  rewrite <- not_true_iff_false, cache_hit_true. split.
  - intros H. destruct refresh; [now left|]. right.
    destruct (apps c) as [|a l]; [now left|]. right.
    apply Qnot_lt_le. intros Hlt. apply H. repeat split; congruence.
  - intros [->|[->|Hle]] (Hr & Ha & Hlt); try congruence.
    now apply (Qlt_not_le _ _ Hlt).
Qed.

(** ** What the cache holds *)

Lemma held_snapshot (c : cache) :
  held c -> distinct_keys (apps c) /\ sorted_by_name (apps c).
Proof.
  induction 1 as [|w refresh c Hc IH].
  - split; constructor.
  - rewrite get_all_apps_run.
    destruct (cache_hit refresh (time_time w) c); [exact IH|].
    destruct (start_result w) as [started|e]; [|exact IH].
    split; [apply build_snapshot_distinct|apply build_snapshot_sorted].
Qed.

(** C6.  Whatever cell the module holds, a snapshot that [_get_all_apps]
    returns has pairwise distinct keys, the key of a record being its name
    stripped and then case-folded, and is in ascending order of the
    lower-cased names.  The candidates of an exact launch are the records
    of the snapshot whose key is the stripped, case-folded requested name;
    so they are at most one. *)
Theorem snapshot_distinct_sorted (w : world) (refresh : bool) (c : cache)
    (snapshot : list app) :
  held c ->
  value_of (_get_all_apps w refresh c) = Ok snapshot ->
  NoDup (map (fun a => PyStr.casefold (PyStr.strip (name a))) snapshot)
  /\ StronglySorted
       (fun a b =>
          String.leb (PyStr.lower (name a)) (PyStr.lower (name b)) = true)
       snapshot
  /\ forall name_value : string,
      (forall a : app,
          In a (find_matches true (_normalize_name name_value) snapshot)
          <-> In a snapshot
              /\ PyStr.casefold (PyStr.strip (name a))
                 = PyStr.casefold (PyStr.strip name_value))
      /\ (List.length
            (find_matches true (_normalize_name name_value) snapshot)
          <= 1)%nat.
Proof.
  intros Hc Hrun.
  assert (Hs : distinct_keys snapshot /\ sorted_by_name snapshot).
  { rewrite get_all_apps_run in Hrun.
    destruct (cache_hit refresh (time_time w) c).
    - injection Hrun as <-. now apply held_snapshot.
    - destruct (start_result w) as [started|e]; [|discriminate].
      injection Hrun as <-.
      split; [apply build_snapshot_distinct|apply build_snapshot_sorted]. }
  destruct Hs as [Hd Hs].
  split; [exact Hd|]. split; [exact Hs|].
  intros name_value. split.
  - intros a. unfold find_matches. rewrite filter_In, String.eqb_eq.
    reflexivity.
  - now apply exact_matches_unique.
Qed.

Lemma snapshot_distinct_sorted_witness :
  held _APP_CACHE
  /\ value_of (_get_all_apps mixed_world false _APP_CACHE) = Ok mixed_snapshot
  /\ find_matches true (_normalize_name "  FOO ") mixed_snapshot = [foo_merged]
  /\ NoDup (map (fun a => PyStr.casefold (PyStr.strip (name a)))
              mixed_snapshot)
  /\ StronglySorted
       (fun a b =>
          String.leb (PyStr.lower (name a)) (PyStr.lower (name b)) = true)
       mixed_snapshot
  /\ forall name_value : string,
      (forall a : app,
          In a (find_matches true (_normalize_name name_value) mixed_snapshot)
          <-> In a mixed_snapshot
              /\ PyStr.casefold (PyStr.strip (name a))
                 = PyStr.casefold (PyStr.strip name_value))
      /\ (List.length
            (find_matches true (_normalize_name name_value) mixed_snapshot)
          <= 1)%nat.
Proof.
  split; [exact held_initial|]. split; [reflexivity|].
  split; [reflexivity|].
  apply (snapshot_distinct_sorted mixed_world false _APP_CACHE mixed_snapshot).
  - exact held_initial.
  - reflexivity.
Defined.

(** ** The cache policy *)

(** C2, as the code has it.  Without [refresh], when the held list of apps
    is not empty and its age is strictly below 300 seconds, the held list
    is returned, nothing is done to the outside and the cell is left as it
    was.  Otherwise (refresh, an empty held list, or an age of 300 seconds
    or more) the collectors are run again, Start Menu first, and when the
    Start Menu collector returns, the new snapshot, built from both
    results, is returned and replaces the cell whole, stamped with the
    current time.  On Windows running the Start Menu collector is running
    PowerShell. *)
Theorem cache_policy (w : world) (refresh : bool) (c : cache) :
  (refresh = false ->
   apps c <> [] ->
   (time_time w - timestamp c < CACHE_TTL_SECONDS)%Q ->
   _get_all_apps w refresh c = ([], c, Ok (apps c)))
  /\ (refresh = true \/ apps c = []
      \/ (CACHE_TTL_SECONDS <= time_time w - timestamp c)%Q ->
      forall started : list app,
        value_of (_get_start_apps w c) = Ok started ->
        exists registered : list app,
          value_of (_get_registry_apps w c) = Ok registered
          /\ _get_all_apps w refresh c
             = (events_of (_get_start_apps w c)
                ++ events_of (_get_registry_apps w c),
                mkCache (time_time w) (build_snapshot (started ++ registered)),
                Ok (build_snapshot (started ++ registered))))
  /\ events_of (_get_start_apps w c)
     = if is_win32 w then [EvRun powershell_cmd] else [].
Proof.
  split; [|split].
  - intros Hr Ha Hage. rewrite get_all_apps_run.
    now rewrite (proj2 (cache_hit_true refresh (time_time w) c)).
  - intros Hmiss started Hstart.
    apply cache_hit_false in Hmiss.
    rewrite get_all_apps_run, Hmiss, !start_apps_run, !registry_apps_run.
    rewrite start_apps_run in Hstart. unfold value_of in Hstart. simpl in Hstart.
    rewrite Hstart. exists (registry_result w). split; reflexivity.
  - now rewrite start_apps_run.
Qed.

Lemma cache_policy_witness :
  _get_all_apps (at_time 299 foo_world) false (mkCache 0 [foo_merged])
  = ([], mkCache 0 [foo_merged], Ok [foo_merged])
  /\ exists registered : list app,
      value_of (_get_registry_apps (at_time 301 foo_world)
                  (mkCache 0 [foo_merged])) = Ok registered
      /\ _get_all_apps (at_time 301 foo_world) false (mkCache 0 [foo_merged])
         = (events_of (_get_start_apps (at_time 301 foo_world)
                         (mkCache 0 [foo_merged]))
            ++ events_of (_get_registry_apps (at_time 301 foo_world)
                            (mkCache 0 [foo_merged])),
            mkCache 301 (build_snapshot ([foo_start] ++ registered)),
            Ok (build_snapshot ([foo_start] ++ registered))).
Proof.
  split.
  - apply (proj1 (cache_policy (at_time 299 foo_world) false
                    (mkCache 0 [foo_merged]))).
    + reflexivity.
    + discriminate.
    + reflexivity.
  - apply (proj1 (proj2 (cache_policy (at_time 301 foo_world) false
                           (mkCache 0 [foo_merged])))).
    + right. right. discriminate.
    + reflexivity.
Defined.

(** C2, as the spec words it, fails on an empty snapshot.  From the
    initial cell, a call at time 100 on a host with nothing installed
    builds and stores the empty snapshot, stamped 100.  A call at time 150
    without [refresh], the snapshot being 50 seconds old, does not return
    it: the collectors run again, and the snapshot returned and stored is
    another one, stamped 150. *)
Lemma empty_snapshot_rebuilt_within_ttl :
  _get_all_apps (at_time 100 quiet_world) false _APP_CACHE
  = (rebuild_events, mkCache 100 [], Ok [])
  /\ (150 - timestamp (mkCache 100 []) < CACHE_TTL_SECONDS)%Q
  /\ _get_all_apps (at_time 150 foo_world) false (mkCache 100 [])
     = (rebuild_events, mkCache 150 [foo_merged], Ok [foo_merged])
  /\ [foo_merged] <> apps (mkCache 100 [])
  /\ ~ (150 == timestamp (mkCache 100 []))%Q.
Proof.
  split; [reflexivity|]. split; [reflexivity|]. split; [reflexivity|].
  split; discriminate.
Qed.

(** C9.  Without [refresh], when the held list of apps is empty, the test
    of the early return fails whatever the age of the cell: the Start Menu
    collector is run again (on Windows, PowerShell is), and when it
    returns, the registry collector is run and the snapshot built from both
    results is returned and stored, stamped with the current time; when it
    raises, the exception leaves [_get_all_apps] and the cell stays as it
    was. *)
Theorem empty_snapshot_never_hits (w : world) (stamp : Q) :
  cache_hit false (time_time w) (mkCache stamp []) = false
  /\ events_of (_get_start_apps w (mkCache stamp []))
     = (if is_win32 w then [EvRun powershell_cmd] else [])
  /\ match value_of (_get_start_apps w (mkCache stamp [])) with
     | Ok started =>
         exists registered : list app,
           value_of (_get_registry_apps w (mkCache stamp [])) = Ok registered
           /\ _get_all_apps w false (mkCache stamp [])
              = (events_of (_get_start_apps w (mkCache stamp []))
                 ++ events_of (_get_registry_apps w (mkCache stamp [])),
                 mkCache (time_time w)
                   (build_snapshot (started ++ registered)),
                 Ok (build_snapshot (started ++ registered)))
     | Raise e =>
         _get_all_apps w false (mkCache stamp [])
         = (events_of (_get_start_apps w (mkCache stamp [])),
            mkCache stamp [], Raise e)
     end.
Proof.
  split; [reflexivity|]. split; [now rewrite start_apps_run|].
  rewrite get_all_apps_run, !start_apps_run, !registry_apps_run.
  unfold value_of, events_of. cbn [fst snd].
  change (cache_hit false (time_time w) (mkCache stamp [])) with false.
  cbv iota.
  destruct (start_result w) as [started|e]; [|reflexivity].
  exists (registry_result w). split; reflexivity.
Qed.

(** ** Stripping and searching strings *)

Lemma lstrip_by_all (p : ascii -> bool) (s : string) :
  all_chars p s = true -> PyStr.lstrip_by p s = EmptyString.
Proof.
  induction s as [|c s IH]; simpl; [reflexivity|].
  intros H. apply andb_true_iff in H. destruct H as [Hc Hs].
  rewrite Hc. now apply IH.
Qed.

Lemma lstrip_by_first (p : ascii -> bool) (s : string) :
  all_chars p s = false ->
  exists c s', PyStr.lstrip_by p s = String c s' /\ p c = false.
Proof.
  induction s as [|c s IH]; simpl; [discriminate|].
  destruct (p c) eqn:Hc; simpl; [exact IH|].
  intros _. now exists c, s.
Qed.

Lemma rstrip_by_first (p : ascii -> bool) (c : ascii) (s : string) :
  p c = false -> PyStr.rstrip_by p (String c s) <> EmptyString.
Proof.
  intros Hc. simpl. destruct (PyStr.rstrip_by p s); [rewrite Hc|]; discriminate.
Qed.

Lemma strip_by_empty (p : ascii -> bool) (s : string) :
  PyStr.strip_by p s = EmptyString <-> all_chars p s = true.
Proof.
  unfold PyStr.strip_by. split.
  - intros H. destruct (all_chars p s) eqn:Hall; [reflexivity|].
    destruct (lstrip_by_first p s Hall) as (c & s' & Hl & Hc).
    rewrite Hl in H. now apply rstrip_by_first in H.
  - intros H. now rewrite lstrip_by_all.
Qed.

Lemma nonempty_false (s : string) : PyStr.nonempty s = false <-> s = EmptyString.
Proof.
  unfold PyStr.nonempty. rewrite negb_false_iff. apply String.eqb_eq.
Qed.

Lemma nonempty_true (s : string) : PyStr.nonempty s = true <-> s <> EmptyString.
Proof.
  unfold PyStr.nonempty. rewrite negb_true_iff. apply String.eqb_neq.
Qed.

(** An argument that is blank is read as the empty string. *)
Lemma blank_stripped (v : option string) :
  blank v = true <-> PyStr.strip (str_or v "") = EmptyString.
Proof.
  unfold PyStr.strip. rewrite strip_by_empty.
  destruct v as [s|]; simpl; [|tauto].
  destruct (PyStr.nonempty s) eqn:Hs; [tauto|].
  apply nonempty_false in Hs. subst. simpl. tauto.
Qed.

Lemma prefix_iff (needle hay : string) :
  String.prefix needle hay = true
  <-> exists after : string, hay = (needle ++ after)%string.
Proof.
  revert hay. induction needle as [|c n IH]; intros hay; simpl.
  - destruct hay; split; eauto.
  - destruct hay as [|d h]; simpl.
    + split; [discriminate|]. intros [a Ha]. discriminate.
    + destruct (Ascii.ascii_dec c d) as [->|Hne].
      * rewrite IH. split; intros [a Ha]; exists a; congruence.
      * split; [discriminate|]. intros [a Ha]. congruence.
Qed.

Lemma contains_iff (needle hay : string) :
  PyStr.contains needle hay = true <-> substring_of needle hay.
Proof.
  unfold substring_of. induction hay as [|d h IH]; cbn [PyStr.contains].
  - rewrite orb_false_r, prefix_iff. split.
    + intros [a Ha]. now exists EmptyString, a.
    + intros ([|b0 b] & a & Ha); [now exists a|discriminate].
  - rewrite orb_true_iff, prefix_iff, IH. split.
    + intros [[a Ha]|(b & a & Ha)].
      * now exists EmptyString, a.
      * exists (String d b), a. simpl. now rewrite Ha.
    + intros ([|b0 b] & a & Ha).
      * left. now exists a.
      * right. exists b, a. simpl in Ha. congruence.
Qed.

(** ** Running [call_tool] *)

Lemma call_tool_launch_app (w : world) (args : arguments) :
  is_win32 w = true -> call_tool w "launch_app" args = launch_app w args.
Proof. unfold call_tool, is_win32. now intros ->. Qed.

Lemma call_tool_list_installed_apps (w : world) (args : arguments) :
  is_win32 w = true ->
  call_tool w "list_installed_apps" args = list_installed_apps w args.
Proof. unfold call_tool, is_win32. now intros ->. Qed.

Lemma call_tool_unsupported (w : world) (tool : string) (args : arguments)
    (c : cache) :
  is_win32 w = false ->
  call_tool w tool args c
  = ([], c, Ok (PError "This tool is only supported on Windows.")).
Proof. unfold call_tool, is_win32. now intros ->. Qed.

Lemma get_all_apps_no_launch (w : world) (refresh : bool) (c : cache) :
  launches (_get_all_apps w refresh c) = [].
Proof.
  unfold launches. rewrite get_all_apps_run.
  destruct (cache_hit refresh (time_time w) c); [reflexivity|].
  unfold start_events, registry_events.
  destruct (start_result w), (is_win32 w), (winreg_loaded w); reflexivity.
Qed.

(** The held list after [_get_all_apps] is the list it returned. *)
Lemma get_all_apps_cached (w : world) (refresh : bool) (c : cache)
    (all : list app) :
  value_of (_get_all_apps w refresh c) = Ok all ->
  apps (cache_of (_get_all_apps w refresh c)) = all.
Proof.
  rewrite get_all_apps_run.
  destruct (cache_hit refresh (time_time w) c).
  - now intros [= <-].
  - destruct (start_result w); [|discriminate]. now intros [= <-].
Qed.

(** ** Launching *)

(** The statements below are about the two branches of [call_tool],
    [launch_app] and [list_installed_apps]; on Windows [call_tool] is the
    branch of the tool named ([call_tool_launch_app],
    [call_tool_list_installed_apps]), elsewhere it answers every request
    with the same error ([call_tool_unsupported]). *)

(** C10.  A [launch_app] request whose [name] and [app_id] are
    both absent, empty or whitespace is answered with the error
    ["Provide name or app_id."]: nothing is done to the outside (no
    collector, no launcher) and the cache cell is left as it was. *)
Theorem missing_target (w : world) (args : arguments) (c : cache) :
  blank (arg_name args) = true ->
  blank (arg_app_id args) = true ->
  launch_app w args c
  = ([], c, Ok (PError "Provide name or app_id.")).
Proof.
  intros Hname Hid.
  apply blank_stripped in Hname, Hid.
  unfold launch_app. rewrite Hname, Hid. reflexivity.
Qed.

Lemma missing_target_witness :
  call_tool foo_world "launch_app" (launch_by_both "   " "") _APP_CACHE
  = ([], _APP_CACHE, Ok (PError "Provide name or app_id.")).
Proof.
  rewrite call_tool_launch_app by reflexivity.
  apply (missing_target foo_world (launch_by_both "   " "") _APP_CACHE);
    reflexivity.
Defined.

(** C7, as the code has it.  A [launch_app] request whose
    [app_id] is not blank starts the AppId launcher on the stripped id and
    does nothing else: no collector is run, the cache cell is neither read
    nor changed, the name is not looked at.  The reply is the launcher's
    outcome: the exception as an error, or a success whose method is
    ["startapps"]. *)
Theorem explicit_id_launch (w : world) (args : arguments) (c : cache) :
  blank (arg_app_id args) = false ->
  launch_app w args c
  = ([EvPopen (apps_folder (PyStr.strip (str_or (arg_app_id args) ""))) None],
     c,
     Ok match popen_fails w
                (apps_folder (PyStr.strip (str_or (arg_app_id args) "")))
                None with
        | None =>
            PLaunched
              [("app_id", PyStr.strip (str_or (arg_app_id args) ""));
               ("method", "startapps")]
        | Some e => PError ("Failed to launch AppID: " ++ e)%string
        end).
Proof.
  intros Hid.
  assert (Hne : PyStr.nonempty (PyStr.strip (str_or (arg_app_id args) ""))
                = true).
  { apply nonempty_true. intros H. apply blank_stripped in H. congruence. }
  unfold launch_app. rewrite Hne. cbn [negb andb].
  unfold bind, popen, emit, ret. cbn.
  now destruct (popen_fails w _ None).
Qed.

Lemma explicit_id_launch_witness :
  call_tool foo_world "launch_app" (launch_by_both "Foo" " AppX ") _APP_CACHE
  = ([EvPopen ["explorer.exe"; "shell:AppsFolder\AppX"] None],
     _APP_CACHE,
     Ok (PLaunched [("app_id", "AppX"); ("method", "startapps")])).
Proof.
  rewrite call_tool_launch_app by reflexivity.
  apply (explicit_id_launch foo_world (launch_by_both "Foo" " AppX ")
           _APP_CACHE); reflexivity.
Defined.

(** C7, as the spec words it, fails twice.  The method of the success reply
    is ["startapps"], not ["appid-direct"].  And an [app_id] that is not
    empty but blank is not used: with the name Foo beside it the inventory
    is built and searched, and the id launched is the one of the record
    found. *)
Lemma explicit_id_method_tag :
  value_of (call_tool foo_world "launch_app" (launch_by_id "AppX") _APP_CACHE)
  = Ok (PLaunched [("app_id", "AppX"); ("method", "startapps")])
  /\ method_of (PLaunched [("app_id", "AppX"); ("method", "startapps")])
     = Some "startapps"
  /\ Some "startapps" <> Some "appid-direct"
  /\ call_tool foo_world "launch_app" (launch_by_both "Foo" " ") _APP_CACHE
     = (rebuild_events ++ [EvPopen ["explorer.exe"; "shell:AppsFolder\AppX"] None],
        mkCache 0 [foo_merged],
        Ok (PLaunched
              [("name", "Foo"); ("method", "startapps"); ("app_id", "AppX")])).
Proof.
  split; [reflexivity|]. split; [reflexivity|]. split; [discriminate|].
  reflexivity.
Qed.

Lemma popen_run (w : world) (argv : list string) (cwd : option string)
    (c : cache) :
  popen w argv cwd c = ([EvPopen argv cwd], c, Ok (popen_fails w argv cwd)).
Proof. reflexivity. Qed.

(** The launch of the one record found, case by case. *)
Lemma launch_match_by_id (w : world) (m : app) (id : string) (c : cache) :
  app_id m = Some id -> id <> EmptyString ->
  launch_match w m c
  = ([EvPopen (apps_folder id) None], c,
     Ok match popen_fails w (apps_folder id) None with
        | None =>
            PLaunched [("name", name m); ("method", "startapps");
                       ("app_id", id)]
        | Some e => PError ("Failed to launch AppID: " ++ e)%string
        end).
Proof.
  intros Hid Hne. apply nonempty_true in Hne.
  unfold launch_match. rewrite Hid. cbn [truthy str_or]. rewrite Hne.
  unfold bind. rewrite popen_run.
  now destruct (popen_fails w (apps_folder id) None).
Qed.

Lemma launch_match_by_exe (w : world) (m : app) (exe : string) (c : cache) :
  truthy (app_id m) = false ->
  exe_path m = Some exe -> exe <> EmptyString -> path_exists w exe = true ->
  launch_match w m c
  = ([EvPopen [exe] (Some (path_parent w exe))], c,
     Ok match popen_fails w [exe] (Some (path_parent w exe)) with
        | None =>
            PLaunched [("name", name m); ("method", "exe"); ("exe_path", exe)]
        | Some e => PError ("Failed to launch exe: " ++ e)%string
        end).
Proof.
  intros Hid Hexe Hne Hex. apply nonempty_true in Hne.
  unfold launch_match. rewrite Hid, Hexe. cbn [truthy str_or].
  rewrite Hne, Hex. cbn [andb].
  unfold bind. rewrite popen_run.
  now destruct (popen_fails w [exe] (Some (path_parent w exe))).
Qed.

Lemma launch_match_no_method (w : world) (m : app) (c : cache) :
  truthy (app_id m) = false ->
  (forall exe, exe_path m = Some exe ->
               exe = EmptyString \/ path_exists w exe = false) ->
  launch_match w m c = ([], c, Ok (PError no_method_error)).
Proof.
  intros Hid Hexe. unfold launch_match. rewrite Hid.
  destruct (exe_path m) as [exe|]; [|reflexivity].
  cbn [truthy str_or].
  destruct (Hexe exe eq_refl) as [->|Hex]; [reflexivity|].
  destruct (PyStr.nonempty exe); [|reflexivity].
  now rewrite Hex.
Qed.

(** [launch_app] by name, once the inventory is there. *)
Lemma launch_app_by_name (w : world) (args : arguments) (c : cache)
    (all : list app) :
  blank (arg_app_id args) = true ->
  blank (arg_name args) = false ->
  value_of (_get_all_apps w (flag_or (arg_refresh args) false) c) = Ok all ->
  launch_app w args c
  = let got := _get_all_apps w (flag_or (arg_refresh args) false) c in
    let name_value := PyStr.strip (str_or (arg_name args) "") in
    let matches :=
      find_matches (flag_or (arg_exact args) false)
        (_normalize_name name_value) all in
    match matches with
    | [] =>
        (events_of got, cache_of got,
         Ok (PError ("No apps found matching '" ++ name_value ++ "'.")%string))
    | [m] =>
        (events_of got ++ events_of (launch_match w m (cache_of got)),
         cache_of (launch_match w m (cache_of got)),
         value_of (launch_match w m (cache_of got)))
    | _ :: _ :: _ =>
        (events_of got, cache_of got,
         Ok (PErrorMatches ambiguous_error (map summary (firstn 10 matches))))
    end.
Proof.
  intros Hid Hname Hall.
  apply blank_stripped in Hid.
  assert (Hne : PyStr.nonempty (PyStr.strip (str_or (arg_name args) ""))
                = true).
  { apply nonempty_true. intros H. apply blank_stripped in H. congruence. }
  unfold launch_app. rewrite Hid, Hne. cbn [PyStr.nonempty String.eqb negb andb].
  cbv zeta.
  destruct (_get_all_apps w (flag_or (arg_refresh args) false) c)
    as [[ev c'] r] eqn:Hrun.
  unfold value_of in Hall. cbn [snd] in Hall. subst r.
  unfold bind. rewrite Hrun. unfold events_of, cache_of. cbn [fst snd].
  destruct (find_matches _ _ all) as [|m [|m' more]]; cbn [ret].
  - now rewrite app_nil_r.
  - cbn [List.length Nat.ltb Nat.leb].
    now destruct (launch_match w m c') as [[ev' c''] r'].
  - cbn [List.length Nat.ltb Nat.leb]. unfold ret. now rewrite app_nil_r.
Qed.

(** C3.  A [launch_app] request by name (no [app_id]) for which
    the inventory has exactly one candidate [m]: when [m] has a non-empty
    app id, the one launcher started is the AppId launcher on that id;
    else, when [m] has a non-empty path that exists, the one launcher
    started is the executable, with the parent of the path as working
    directory; else no launcher is started and the reply is the error that
    there is no launch method.  In the first two cases the reply is the
    launcher's outcome. *)
Theorem launch_priority (w : world) (args : arguments) (c : cache)
    (all : list app) (m : app) :
  blank (arg_app_id args) = true ->
  blank (arg_name args) = false ->
  value_of (_get_all_apps w (flag_or (arg_refresh args) false) c) = Ok all ->
  find_matches (flag_or (arg_exact args) false)
    (_normalize_name (PyStr.strip (str_or (arg_name args) ""))) all = [m] ->
  (forall id : string,
      app_id m = Some id -> id <> EmptyString ->
      launches (launch_app w args c)
      = [EvPopen (apps_folder id) None]
      /\ value_of (launch_app w args c)
         = Ok match popen_fails w (apps_folder id) None with
              | None =>
                  PLaunched [("name", name m); ("method", "startapps");
                             ("app_id", id)]
              | Some e => PError ("Failed to launch AppID: " ++ e)%string
              end)
  /\ (forall exe : string,
         truthy (app_id m) = false ->
         exe_path m = Some exe -> exe <> EmptyString ->
         path_exists w exe = true ->
         launches (launch_app w args c)
         = [EvPopen [exe] (Some (path_parent w exe))]
         /\ value_of (launch_app w args c)
            = Ok match popen_fails w [exe] (Some (path_parent w exe)) with
                 | None =>
                     PLaunched [("name", name m); ("method", "exe");
                                ("exe_path", exe)]
                 | Some e => PError ("Failed to launch exe: " ++ e)%string
                 end)
  /\ (truthy (app_id m) = false ->
      (forall exe : string,
          exe_path m = Some exe ->
          exe = EmptyString \/ path_exists w exe = false) ->
      launches (launch_app w args c) = []
      /\ value_of (launch_app w args c)
         = Ok (PError no_method_error)).
Proof.
  intros Hid Hname Hall Hone.
  rewrite (launch_app_by_name w args c all Hid Hname Hall). cbv zeta.
  rewrite Hone. unfold launches, events_of, value_of. cbn [fst snd].
  rewrite filter_app.
  change (filter is_launch
            (fst (fst (_get_all_apps w (flag_or (arg_refresh args) false) c))))
    with (launches (_get_all_apps w (flag_or (arg_refresh args) false) c)).
  rewrite get_all_apps_no_launch. cbn [List.app].
  split; [|split].
  - intros id Hm Hne. now rewrite (launch_match_by_id w m id _ Hm Hne).
  - intros exe Hm Hexe Hne Hex.
    now rewrite (launch_match_by_exe w m exe _ Hm Hexe Hne Hex).
  - intros Hm Hexe. now rewrite (launch_match_no_method w m _ Hm Hexe).
Qed.

Lemma launch_priority_witness :
  (launches (call_tool foo_world "launch_app" (launch_by_name "foo")
               _APP_CACHE)
   = [EvPopen ["explorer.exe"; "shell:AppsFolder\AppX"] None]
   /\ value_of (call_tool foo_world "launch_app" (launch_by_name "foo")
                  _APP_CACHE)
      = Ok (PLaunched
              [("name", "Foo"); ("method", "startapps"); ("app_id", "AppX")]))
  /\ (launches (call_tool registry_only_world "launch_app"
                  (launch_by_name "foo") _APP_CACHE)
      = [EvPopen ["C:\foo.exe"] (Some "C:\")]
      /\ value_of (call_tool registry_only_world "launch_app"
                     (launch_by_name "foo") _APP_CACHE)
         = Ok (PLaunched
                 [("name", "Foo"); ("method", "exe");
                  ("exe_path", "C:\foo.exe")]))
  /\ (launches (call_tool bare_world "launch_app" (launch_by_name "foo")
                  _APP_CACHE) = []
      /\ value_of (call_tool bare_world "launch_app" (launch_by_name "foo")
                     _APP_CACHE)
         = Ok (PError no_method_error)).
Proof.
  rewrite !call_tool_launch_app by reflexivity.
  split; [|split].
  - apply (proj1 (launch_priority foo_world (launch_by_name "foo") _APP_CACHE
                    [foo_merged] foo_merged
                    eq_refl eq_refl eq_refl eq_refl) "AppX").
    + reflexivity.
    + discriminate.
  - apply (proj1 (proj2 (launch_priority registry_only_world
                           (launch_by_name "foo") _APP_CACHE
                           [foo_registry] foo_registry
                           eq_refl eq_refl eq_refl eq_refl))
             "C:\foo.exe").
    + reflexivity.
    + reflexivity.
    + discriminate.
    + reflexivity.
  - apply (proj2 (proj2 (launch_priority bare_world
                           (launch_by_name "foo") _APP_CACHE
                           [foo_bare] foo_bare
                           eq_refl eq_refl eq_refl eq_refl))).
    + reflexivity.
    + discriminate.
Defined.

(** C4.  A [launch_app] request by name (no [app_id]) for which
    the inventory has more than one candidate is answered with the error
    of an ambiguous match, listing the first ten candidates (all of them
    when they are fewer) in their order, each as the three fields name,
    app id and path of the candidate, with the candidate's own values; no
    launcher is started. *)
Theorem ambiguous_match (w : world) (args : arguments) (c : cache)
    (all : list app) :
  blank (arg_app_id args) = true ->
  blank (arg_name args) = false ->
  value_of (_get_all_apps w (flag_or (arg_refresh args) false) c) = Ok all ->
  (1 < List.length
         (find_matches (flag_or (arg_exact args) false)
            (_normalize_name (PyStr.strip (str_or (arg_name args) ""))) all))%nat ->
  value_of (launch_app w args c)
  = Ok (PErrorMatches
          "Multiple matches found. Use a more specific name or app_id."
          (map (fun m : app =>
                  {| opt_name := name m;
                     opt_app_id := app_id m;
                     opt_exe_path := exe_path m |})
             (firstn 10
                (find_matches (flag_or (arg_exact args) false)
                   (_normalize_name (PyStr.strip (str_or (arg_name args) "")))
                   all))))
  /\ List.length
       (firstn 10
          (find_matches (flag_or (arg_exact args) false)
             (_normalize_name (PyStr.strip (str_or (arg_name args) "")))
             all))
     = Nat.min 10
         (List.length
            (find_matches (flag_or (arg_exact args) false)
               (_normalize_name (PyStr.strip (str_or (arg_name args) "")))
               all))
  /\ launches (launch_app w args c) = [].
Proof.
  intros Hid Hname Hall Hmany.
  rewrite (launch_app_by_name w args c all Hid Hname Hall). cbv zeta.
  split; [|split].
  - destruct (find_matches _ _ all) as [|m [|m' more]];
      [simpl in Hmany; lia|simpl in Hmany; lia|reflexivity].
  - apply length_firstn.
  - destruct (find_matches _ _ all) as [|m [|m' more]];
      [simpl in Hmany; lia|simpl in Hmany; lia|].
    unfold launches. cbn [events_of fst].
    apply get_all_apps_no_launch.
Qed.

Lemma ambiguous_match_witness :
  value_of (_get_all_apps chrome_ids_world false _APP_CACHE)
  = Ok [crd_app; chrome_app]
  /\ value_of (call_tool chrome_ids_world "launch_app"
                 (launch_by_name "chrome") _APP_CACHE)
     = Ok (PErrorMatches
             "Multiple matches found. Use a more specific name or app_id."
             [ {| opt_name := "Chrome Remote Desktop";
                  opt_app_id := None;
                  opt_exe_path := Some "C:\crd.exe" |};
               {| opt_name := "Google Chrome";
                  opt_app_id := Some "Chrome";
                  opt_exe_path := Some "C:\chrome.exe" |} ])
  /\ launches (call_tool chrome_ids_world "launch_app"
                 (launch_by_name "chrome") _APP_CACHE) = [].
Proof.
  split; [reflexivity|].
  rewrite !call_tool_launch_app by reflexivity.
  destruct (ambiguous_match chrome_ids_world (launch_by_name "chrome")
              _APP_CACHE [crd_app; chrome_app]
              eq_refl eq_refl eq_refl) as (Hreply & _ & Hnone).
  - simpl. lia.
  - split; [exact Hreply|exact Hnone].
Defined.

(** ** Listing *)

Lemma has_source_In (tag : string) (srcs : list string) :
  has_source tag srcs = true <-> In tag srcs.
Proof.
  unfold has_source. rewrite existsb_exists. split.
  - intros (x & Hin & Heq). apply String.eqb_eq in Heq. now subst.
  - intros Hin. exists tag. split; [exact Hin|apply String.eqb_refl].
Qed.

Lemma listed_app_iff (query : string) (include_registry include_start : bool)
    (a : app) :
  listed_app query include_registry include_start a = true
  <-> ((include_registry = true /\ In "registry" (sources a))
       \/ (include_start = true /\ In "startapps" (sources a)))
      /\ (query = EmptyString
          \/ substring_of query (PyStr.casefold (name a))).
Proof.
  unfold listed_app.
  rewrite andb_true_iff, orb_true_iff, !andb_true_iff, !has_source_In.
  rewrite negb_true_iff, andb_false_iff, negb_false_iff.
  rewrite nonempty_false, contains_iff. tauto.
Qed.

(** C5, as the code has it.  [list_installed_apps] over the
    snapshot [all] that [_get_all_apps] returned lists, in the order of the
    snapshot, the records that pass both filters, cut to the first
    [max(1, limit)], where [limit] is 200 when it is absent or 0.  A record
    passes the source filter when it is tagged registry and
    [include_registry] holds, or tagged startapps and [include_start_apps]
    holds (both flags default to true); it passes the text filter when the
    query, stripped and case-folded, is empty or occurs in the case-folded
    name.  The reply counts the records listed, and the cache cell holds
    the snapshot as it was returned. *)
Theorem list_query (w : world) (args : arguments) (c : cache)
    (all : list app) :
  value_of (_get_all_apps w (flag_or (arg_refresh args) false) c) = Ok all ->
  let query := PyStr.casefold (PyStr.strip (str_or (arg_query args) "")) in
  let include_registry := flag_or (arg_include_registry args) true in
  let include_start := flag_or (arg_include_start_apps args) true in
  let limit :=
    match arg_limit args with
    | None => 200
    | Some 0 => 200
    | Some n => n
    end in
  let passing := filter (listed_app query include_registry include_start) all in
  let listed := firstn (Z.to_nat (Z.max 1 limit)) passing in
  value_of (list_installed_apps w args c)
  = Ok (PApps (List.length listed) (utc_isoformat w) listed)
  /\ (forall a : app,
         In a passing
         <-> In a all
             /\ ((include_registry = true /\ In "registry" (sources a))
                 \/ (include_start = true /\ In "startapps" (sources a)))
             /\ (query = EmptyString
                 \/ substring_of query (PyStr.casefold (name a))))
  /\ List.length listed
     = Nat.min (Z.to_nat (Z.max 1 limit)) (List.length passing)
  /\ apps (cache_of (list_installed_apps w args c)) = all.
Proof.
  intros Hall query include_registry include_start limit passing listed.
  assert (Hlimit : limit_or (arg_limit args) 200 = limit).
  { unfold limit_or, limit. destruct (arg_limit args) as [[|p|p]|]; reflexivity. }
  pose proof (get_all_apps_cached _ _ _ _ Hall) as Hcached.
  unfold list_installed_apps. rewrite Hlimit.
  fold query include_registry include_start.
  destruct (_get_all_apps w (flag_or (arg_refresh args) false) c)
    as [[ev c'] r] eqn:Hrun.
  unfold value_of in Hall. cbn [snd] in Hall. subst r.
  unfold bind. rewrite Hrun. unfold ret, value_of, cache_of. cbn [fst snd].
  fold passing. fold listed.
  split; [reflexivity|]. split; [|split].
  - intros a. unfold passing. rewrite filter_In, listed_app_iff. tauto.
  - apply length_firstn.
  - exact Hcached.
Qed.

Lemma list_query_witness :
  value_of (call_tool chrome_world "list_installed_apps"
              (mkArgs (Some " CHROME ") (Some 1) None (Some false) None
                 None None None) _APP_CACHE)
  = Ok (PApps 1 (utc_isoformat chrome_world)
          [registry_app "Chrome Remote Desktop"]).
Proof.
  pose proof (proj1 (list_query chrome_world
           (mkArgs (Some " CHROME ") (Some 1) None (Some false) None
              None None None) _APP_CACHE
           [registry_app "Chrome Remote Desktop"; registry_app "Google Chrome"]
           eq_refl)) as H.
  vm_compute in H. vm_compute. exact H.
Defined.

(** C5, as the spec words it, fails in three places.  A [limit] of 0 is
    read as the default 200, so two records are listed where
    [max(1, 0)] is 1.  The tag the source filter looks for is startapps: a
    record tagged registry and startmenu is not listed when only the Start
    Menu flag is on.  And the query is stripped before it is searched: the
    query [chrome] after two blanks lists both records, although with its
    blanks it occurs in neither name. *)
Lemma zero_limit_lists_all :
  value_of (call_tool chrome_world "list_installed_apps" (list_with_limit 0)
              _APP_CACHE)
  = Ok (PApps 2 (utc_isoformat chrome_world)
          [registry_app "Chrome Remote Desktop"; registry_app "Google Chrome"])
  /\ (Z.to_nat (Z.max 1 0) < 2)%nat
  /\ listed_app "" false true startmenu_tagged = false
  /\ value_of (call_tool chrome_world "list_installed_apps"
                 (mkArgs (Some "  chrome") None None None None None None None)
                 _APP_CACHE)
     = Ok (PApps 2 (utc_isoformat chrome_world)
             [registry_app "Chrome Remote Desktop";
              registry_app "Google Chrome"])
  /\ PyStr.contains (PyStr.casefold "  chrome")
       (PyStr.casefold "Google Chrome") = false
  /\ PyStr.contains (PyStr.casefold "  chrome")
       (PyStr.casefold "Chrome Remote Desktop") = false.
Proof.
  split; [reflexivity|]. split; [simpl; lia|]. split; [reflexivity|].
  split; [reflexivity|]. split; reflexivity.
Qed.

(** ** A collector that fails *)

(** The failures the Start Menu collector signals give an empty list. *)
Lemma start_failure_signalled (w : world) (result : completed) :
  subprocess_run w powershell_cmd = Ok result ->
  returncode result <> 0
  \/ PyStr.strip (stdout result) = EmptyString
  \/ json_loads w (PyStr.strip (stdout result)) = None
  \/ json_loads w (PyStr.strip (stdout result)) = Some DocOther ->
  start_outcome w = Ok [].
Proof.
  intros Hrun Hfail. unfold start_outcome. rewrite Hrun.
  destruct (Z.eqb_spec (returncode result) 0) as [Hrc|Hrc]; [|reflexivity].
  cbn [negb].
  destruct (PyStr.nonempty (PyStr.strip (stdout result))) eqn:Hne;
    [|reflexivity].
  cbn [negb]. apply nonempty_true in Hne.
  destruct Hfail as [H|[H|[H|H]]]; try contradiction; now rewrite H.
Qed.

(** C8 fails on the code.  With no PowerShell to start, [subprocess.run]
    raises inside the Start Menu collector, which has no handler around
    it: the exception leaves [_get_start_apps], [_get_all_apps] and
    [call_tool]; the registry collector, which has the record of Foo, is
    not run, and no snapshot is stored.  The same happens when an item of
    the parsed output is no object. *)
Theorem start_menu_fault_propagates :
  call_tool no_powershell_world "list_installed_apps" no_arguments _APP_CACHE
  = ([EvRun powershell_cmd], _APP_CACHE,
     Raise "[WinError 2] The system cannot find the file specified")
  /\ value_of (_get_registry_apps no_powershell_world _APP_CACHE)
     = Ok [foo_registry]
  /\ call_tool odd_item_world "list_installed_apps" no_arguments _APP_CACHE
     = ([EvRun powershell_cmd], _APP_CACHE,
        Raise "'int' object has no attribute 'get'").
Proof.
  split; [reflexivity|]. split; reflexivity.
Qed.

(* ================================================================= *)
(** * Further properties of the code *)

(** ** Keys *)







Lemma lstrip_by_head (p : ascii -> bool) (s : string) (c : ascii) (t : string) :
  PyStr.lstrip_by p s = String c t -> p c = false.
Proof.
  induction s as [|d s IH]; simpl; [discriminate|].
  destruct (p d) eqn:Hd; [exact IH|].
  now intros [= <- _].
Qed.

Lemma rstrip_by_head (p : ascii -> bool) (c : ascii) (s : string) :
  p c = false -> exists t, PyStr.rstrip_by p (String c s) = String c t.
Proof.
  intros Hc. simpl. destruct (PyStr.rstrip_by p s) as [|d r].
  - rewrite Hc. now exists EmptyString.
  - now exists (String d r).
Qed.

Lemma rstrip_by_idem (p : ascii -> bool) (s : string) :
  PyStr.rstrip_by p (PyStr.rstrip_by p s) = PyStr.rstrip_by p s.
Proof.
  induction s as [|c s IH]; [reflexivity|].
  cbn [PyStr.rstrip_by].
  destruct (PyStr.rstrip_by p s) as [|d r] eqn:Hr.
  - destruct (p c) eqn:Hc; [reflexivity|]. simpl. now rewrite Hc.
  - cbn [PyStr.rstrip_by] in *. now rewrite IH.
Qed.

Lemma strip_by_idem (p : ascii -> bool) (s : string) :
  PyStr.strip_by p (PyStr.strip_by p s) = PyStr.strip_by p s.
Proof.
  unfold PyStr.strip_by.
  destruct (PyStr.lstrip_by p s) as [|c t] eqn:Hl; [reflexivity|].
  pose proof (lstrip_by_head p s c t Hl) as Hc.
  destruct (rstrip_by_head p c t Hc) as [u Hu]. rewrite Hu.
  cbn [PyStr.lstrip_by]. rewrite Hc, <- Hu. apply rstrip_by_idem.
Qed.


Lemma rstrip_by_all (p : ascii -> bool) (pad : string) :
  all_chars p pad = true -> PyStr.rstrip_by p pad = EmptyString.
Proof.
  induction pad as [|c pad IH]; simpl; [reflexivity|].
  intros H. apply andb_true_iff in H. destruct H as [Hc Hp].
  now rewrite IH, Hc.
Qed.

Lemma rstrip_by_pad (p : ascii -> bool) (s pad : string) :
  all_chars p pad = true ->
  PyStr.rstrip_by p (s ++ pad)%string = PyStr.rstrip_by p s.
Proof.
  intros Hp. induction s as [|c s IH]; simpl.
  - now apply rstrip_by_all.
  - now rewrite IH.
Qed.





(** ** The algebra of [_merge_apps] *)

Lemma strictly_sorted_head (x : string) (l : list string) :
  StronglySorted str_lt (x :: l) -> ~ In x l.
Proof.
  intros Hs Hin. inversion Hs as [|? ? _ Hall]; subst.
  rewrite Forall_forall in Hall. exact (str_lt_irrefl x (Hall x Hin)).
Qed.

(** A strictly ascending list is fixed by its elements. *)
Lemma strictly_sorted_unique (l1 l2 : list string) :
  StronglySorted str_lt l1 -> StronglySorted str_lt l2 ->
  (forall x, In x l1 <-> In x l2) -> l1 = l2.
Proof.
  revert l2. induction l1 as [|a l1 IH]; intros [|b l2] H1 H2 Heq.
  - reflexivity.
  - exfalso. apply (proj2 (Heq b)). now left.
  - exfalso. apply (proj1 (Heq a)). now left.
  - pose proof (strictly_sorted_head _ _ H1) as Ha.
    pose proof (strictly_sorted_head _ _ H2) as Hb.
    inversion H1 as [|? ? H1' Hall1]; subst.
    inversion H2 as [|? ? H2' Hall2]; subst.
    rewrite Forall_forall in Hall1, Hall2.
    assert (Hab : a = b).
    { destruct (proj1 (Heq a) (or_introl eq_refl)) as [Hba|Hin2];
        [now symmetry|].
      destruct (proj2 (Heq b) (or_introl eq_refl)) as [Hab|Hin1];
        [exact Hab|].
      exfalso. apply (str_lt_irrefl a).
      eapply str_lt_trans; [apply Hall1, Hin1|apply Hall2, Hin2]. }
    subst b. f_equal. apply IH; try assumption.
    intros x. split; intros Hin.
    + destruct (proj1 (Heq x) (or_intror Hin)) as [Hx|Hx]; [|exact Hx].
      subst x. contradiction.
    + destruct (proj2 (Heq x) (or_intror Hin)) as [Hx|Hx]; [|exact Hx].
      subst x. contradiction.
Qed.

Lemma sorted_set_ext (xs ys : list string) :
  (forall x, In x xs <-> In x ys) -> sorted_set xs = sorted_set ys.
Proof.
  intros H. apply strictly_sorted_unique; try apply sorted_set_sorted.
  intros x. now rewrite !sorted_set_In.
Qed.

Lemma app_ext (a b : app) :
  name a = name b ->
  (forall f, get f a = get f b) ->
  sources a = sources b ->
  a = b.
Proof.
  destruct a as [n v p l e i s], b as [n' v' p' l' e' i' s']. simpl.
  intros Hn Hf Hs.
  pose proof (Hf F_app_id) as H1. pose proof (Hf F_exe_path) as H2.
  pose proof (Hf F_version) as H3. pose proof (Hf F_publisher) as H4.
  pose proof (Hf F_install_location) as H5. simpl in *. congruence.
Qed.

Lemma merged_value_assoc (a b c : option string) :
  merged_value (merged_value a b) c = merged_value a (merged_value b c).
Proof.
  unfold merged_value.
  destruct (truthy a) eqn:Ha, (truthy b) eqn:Hb, (truthy c) eqn:Hc;
    repeat (cbv iota; rewrite ?Ha, ?Hb, ?Hc); reflexivity.
Qed.

Lemma merged_value_absorb (a b : option string) :
  merged_value (merged_value a b) b = merged_value a b.
Proof.
  unfold merged_value.
  destruct (truthy a) eqn:Ha, (truthy b) eqn:Hb;
    repeat (cbv iota; rewrite ?Ha, ?Hb); reflexivity.
Qed.

(** X2.  Merging is associative, and merging the same record in a second
    time changes nothing: a program that several registry keys list with
    the same values is merged as if it were listed once. *)
Theorem merge_apps_assoc_absorb (a b c : app) :
  _merge_apps (_merge_apps a b) c = _merge_apps a (_merge_apps b c)
  /\ _merge_apps (_merge_apps a b) b = _merge_apps a b.
Proof.
  split; apply app_ext.
  - now rewrite !merge_apps_name.
  - intros f. rewrite !merge_apps_get. apply merged_value_assoc.
  - rewrite !merge_apps_sources. apply sorted_set_ext. intros x.
    rewrite !in_app_iff, !sorted_set_In, !in_app_iff. tauto.
  - now rewrite !merge_apps_name.
  - intros f. rewrite !merge_apps_get. apply merged_value_absorb.
  - rewrite !merge_apps_sources. apply sorted_set_ext. intros x.
    rewrite !in_app_iff, !sorted_set_In, !in_app_iff. tauto.
Qed.

(** ** What [deduped] holds *)

Lemma dict_get_set_same (k : string) (v : app) (d : list (string * app)) :
  dict_get k (dict_set k v d) = Some v.
Proof.
  induction d as [|[k' v'] d IH]; simpl.
  - now rewrite String.eqb_refl.
  - destruct (String.eqb_spec k' k) as [->|Hne]; simpl.
    + now rewrite String.eqb_refl.
    + destruct (String.eqb_spec k' k); [contradiction|exact IH].
Qed.

Lemma dict_get_set_other (k k' : string) (v : app) (d : list (string * app)) :
  k <> k' -> dict_get k (dict_set k' v d) = dict_get k d.
Proof.
  intros Hne. induction d as [|[k0 v0] d IH]; simpl.
  - destruct (String.eqb_spec k' k); [congruence|reflexivity].
  - destruct (String.eqb_spec k0 k') as [->|Hne0]; simpl.
    + destruct (String.eqb_spec k' k); [congruence|reflexivity].
    + destruct (String.eqb_spec k0 k); [reflexivity|exact IH].
Qed.

Lemma dict_get_In (k : string) (e : app) (d : list (string * app)) :
  dict_get k d = Some e -> In (k, e) d.
Proof.
  induction d as [|[k' v'] d IH]; simpl; [discriminate|].
  destruct (String.eqb_spec k' k) as [->|Hne].
  - intros [= ->]. now left.
  - intros H. right. now apply IH.
Qed.

Lemma dict_In_get (k : string) (e : app) (d : list (string * app)) :
  NoDup (map fst d) -> In (k, e) d -> dict_get k d = Some e.
Proof.
  induction d as [|[k' v'] d IH]; simpl; [tauto|].
  intros Hnd [Heq|Hin].
  - injection Heq as -> ->. now rewrite String.eqb_refl.
  - inversion Hnd as [|? ? Hnotin Hnd']; subst.
    destruct (String.eqb_spec k' k) as [->|Hne]; [|now apply IH].
    exfalso. apply Hnotin. now apply (in_map fst) in Hin.
Qed.

Lemma dict_get_step (k : string) (d : list (string * app)) (a : app) :
  dict_get k (dedupe_step d a)
  = if (key_of a =? k)%string
    then Some match dict_get k d with
              | Some e => _merge_apps e a
              | None => a
              end
    else dict_get k d.
Proof.
  unfold dedupe_step. fold (key_of a).
  destruct (String.eqb_spec (key_of a) k) as [<-|Hne].
  - destruct (dict_get (key_of a) d); apply dict_get_set_same.
  - destruct (dict_get (key_of a) d);
      apply dict_get_set_other; congruence.
Qed.

Lemma dict_get_fold (k : string) (l : list app) (d : list (string * app)) :
  dict_get k (fold_left dedupe_step l d)
  = match dict_get k d with
    | Some e => Some (fold_left _merge_apps (group k l) e)
    | None => merged_group k l
    end.
Proof.
  revert d. induction l as [|a l IH]; intros d.
  - cbn. now destruct (dict_get k d).
  - cbn [fold_left]. rewrite IH, dict_get_step.
    unfold merged_group, group. cbn [filter].
    destruct (key_of a =? k)%string; [|reflexivity].
    now destruct (dict_get k d).
Qed.

(** Under a key, [deduped] holds the records of that key merged from the
    left. *)
Lemma dict_get_dedupe (k : string) (l : list app) :
  dict_get k (dedupe l) = merged_group k l.
Proof. unfold dedupe. now rewrite dict_get_fold. Qed.

Lemma dict_values_In (r : app) (d : list (string * app)) :
  NoDup (map fst d) ->
  In r (map snd d) <-> exists k, dict_get k d = Some r.
Proof.
  intros Hnd. rewrite in_map_iff. split.
  - intros ([k v] & Hv & Hin). simpl in Hv. subst v.
    exists k. now apply dict_In_get.
  - intros [k Hk]. exists (k, r). split; [reflexivity|now apply dict_get_In].
Qed.

Lemma snapshot_of_group (collected : list app) (k : string) (r : app) :
  merged_group k collected = Some r -> In r (build_snapshot collected).
Proof.
  intros Hk. rewrite <- dict_get_dedupe in Hk. unfold build_snapshot.
  apply (Permutation_in _ (Permutation_sym (sorted_by_perm _ _))).
  apply dict_values_In; [apply dedupe_ok|]. now exists k.
Qed.

Lemma group_of_snapshot (collected : list app) (r : app) :
  In r (build_snapshot collected) ->
  exists k : string, merged_group k collected = Some r.
Proof.
  unfold build_snapshot. intros Hin.
  apply (Permutation_in _ (sorted_by_perm _ _)) in Hin.
  apply dict_values_In in Hin; [|apply dedupe_ok].
  destruct Hin as [k Hk]. exists k. now rewrite <- dict_get_dedupe.
Qed.

(** X3.  The records of a snapshot are exactly the groups of collected
    records that share a key, each group merged from the left in the order
    the records were collected. *)
Theorem snapshot_is_merged_groups (collected : list app) (r : app) :
  In r (build_snapshot collected)
  <-> exists k : string, merged_group k collected = Some r.
Proof.
  split.
  - apply group_of_snapshot.
  - intros [k Hk]. now apply (snapshot_of_group collected k).
Qed.

Lemma fold_merge_name (rest : list app) (first : app) :
  name (fold_left _merge_apps rest first) = name first.
Proof.
  revert first. induction rest as [|b rest IH]; intros first; simpl;
    [reflexivity|].
  now rewrite IH, merge_apps_name.
Qed.

Lemma merged_value_truthy_left (a b : option string) :
  truthy a = true -> truthy (merged_value a b) = true.
Proof. unfold merged_value. intros H. now rewrite H. Qed.

Lemma merged_value_truthy_right (a b : option string) :
  truthy b = true -> truthy (merged_value a b) = true.
Proof.
  unfold merged_value. intros H.
  destruct (truthy a) eqn:Ha; [exact Ha|]. now rewrite H.
Qed.

Lemma fold_merge_grows (rest : list app) (first : app) (f : field) :
  (truthy (get f first) = true ->
   truthy (get f (fold_left _merge_apps rest first)) = true)
  /\ (forall s, In s (sources first) ->
                In s (sources (fold_left _merge_apps rest first))).
Proof.
  revert first. induction rest as [|b rest IH]; intros first; [now split|].
  cbn [fold_left]. destruct (IH (_merge_apps first b)) as [Hf Hs]. split.
  - intros Ht. apply Hf. rewrite merge_apps_get.
    now apply merged_value_truthy_left.
  - intros s Hin. apply Hs. rewrite merge_apps_sources, sorted_set_In.
    apply in_or_app. now left.
Qed.

Lemma fold_merge_keeps (rest : list app) (first a : app) (f : field) :
  In a (first :: rest) ->
  (truthy (get f a) = true ->
   truthy (get f (fold_left _merge_apps rest first)) = true)
  /\ (forall s, In s (sources a) ->
                In s (sources (fold_left _merge_apps rest first))).
Proof.
  revert first. induction rest as [|b rest IH]; intros first Hin.
  - destruct Hin as [<-|[]]. now split.
  - destruct Hin as [<-|[<-|Hin]].
    + apply fold_merge_grows.
    + cbn [fold_left].
      destruct (fold_merge_grows rest (_merge_apps first b) f) as [Hf Hs].
      split.
      * intros Ht. apply Hf. rewrite merge_apps_get.
        now apply merged_value_truthy_right.
      * intros s Hin. apply Hs. rewrite merge_apps_sources, sorted_set_In.
        apply in_or_app. now right.
    + cbn [fold_left]. apply IH. now right.
Qed.

Lemma group_In (k : string) (l : list app) (a : app) :
  In a (group k l) <-> In a l /\ key_of a = k.
Proof.
  unfold group. rewrite filter_In. now rewrite String.eqb_eq.
Qed.

Lemma fold_merge_key (rest : list app) (first : app) :
  key_of (fold_left _merge_apps rest first) = key_of first.
Proof. unfold key_of. now rewrite fold_merge_name. Qed.

(** X4.  Nothing a collector found is lost in the snapshot: for every
    collected record there is a record of the snapshot with the same key
    that has every source tag of the record and a non-empty value in every
    field in which the record has one. *)
Theorem snapshot_loses_nothing (collected : list app) (a : app) :
  In a collected ->
  exists r : app,
    In r (build_snapshot collected)
    /\ key_of r = key_of a
    /\ (forall f : field,
           truthy (get f a) = true -> truthy (get f r) = true)
    /\ (forall s : string, In s (sources a) -> In s (sources r)).
Proof.
  intros Hin.
  assert (Hg : In a (group (key_of a) collected))
    by (apply group_In; auto).
  destruct (group (key_of a) collected) as [|first rest] eqn:Hgroup;
    [contradiction|].
  exists (fold_left _merge_apps rest first). split; [|split; [|split]].
  - apply (snapshot_of_group collected (key_of a)).
    unfold merged_group. now rewrite Hgroup.
  - rewrite fold_merge_key.
    assert (Hf : In first (group (key_of a) collected))
      by (rewrite Hgroup; now left).
    now apply group_In in Hf.
  - intros f. now apply (fold_merge_keeps rest first a f).
  - now apply (fold_merge_keeps rest first a F_app_id).
Qed.

Lemma snapshot_loses_nothing_witness :
  exists r : app,
    In r (build_snapshot [foo_start; foo_registry])
    /\ key_of r = key_of foo_registry
    /\ (forall f : field,
           truthy (get f foo_registry) = true -> truthy (get f r) = true)
    /\ (forall s : string, In s (sources foo_registry) -> In s (sources r)).
Proof.
  apply (snapshot_loses_nothing [foo_start; foo_registry] foo_registry).
  simpl. auto.
Defined.

Lemma dict_set_length (k : string) (v : app) (d : list (string * app)) :
  (List.length (dict_set k v d) <= S (List.length d))%nat.
Proof.
  induction d as [|[k' v'] d IH]; simpl; [lia|].
  destruct (k' =? k)%string; simpl; lia.
Qed.

Lemma dedupe_step_length (d : list (string * app)) (a : app) :
  (List.length (dedupe_step d a) <= S (List.length d))%nat.
Proof.
  unfold dedupe_step.
  destruct (dict_get (_normalize_name (name a)) d); apply dict_set_length.
Qed.

Lemma fold_dedupe_length (l : list app) (d : list (string * app)) :
  (List.length (fold_left dedupe_step l d)
   <= List.length d + List.length l)%nat.
Proof.
  revert d. induction l as [|a l IH]; intros d; simpl; [lia|].
  specialize (IH (dedupe_step d a)).
  pose proof (dedupe_step_length d a). lia.
Qed.

Lemma merged_group_key (k : string) (l : list app) (r : app) :
  merged_group k l = Some r -> key_of r = k /\ exists a, In a l /\ key_of a = k.
Proof.
  unfold merged_group.
  destruct (group k l) as [|first rest] eqn:Hg; [discriminate|].
  intros [= <-].
  assert (Hf : In first (group k l)) by (rewrite Hg; now left).
  apply group_In in Hf. destruct Hf as [Hin Hk].
  split; [now rewrite fold_merge_key|now exists first].
Qed.

(** X5.  A snapshot has one record for each key of the collected records
    and no other: its keys are the keys that were collected, and it has at
    most as many records as were collected. *)
Theorem snapshot_keys (collected : list app) :
  (forall k : string,
      In k (map key_of (build_snapshot collected))
      <-> In k (map key_of collected))
  /\ (List.length (build_snapshot collected) <= List.length collected)%nat.
Proof.
  split.
  - intros k. rewrite !in_map_iff. split.
    + intros (r & Hk & Hin). apply group_of_snapshot in Hin.
      destruct Hin as [k' Hg]. apply merged_group_key in Hg.
      destruct Hg as [Hr (a & Ha & Hka)]. exists a. split; congruence.
    + intros (a & Hk & Hin).
      assert (Hg : In a (group k collected)) by (apply group_In; auto).
      destruct (group k collected) as [|first rest] eqn:Hgroup;
        [contradiction|].
      exists (fold_left _merge_apps rest first). split.
      * assert (Hf : In first (group k collected))
          by (rewrite Hgroup; now left).
        apply group_In in Hf. rewrite fold_merge_key. tauto.
      * apply (snapshot_of_group collected k).
        unfold merged_group. now rewrite Hgroup.
  - unfold build_snapshot.
    rewrite (Permutation_length (sorted_by_perm _ _)), length_map.
    apply (fold_dedupe_length collected []).
Qed.

(** ** The records the collectors build *)

Lemma strip_idem (s : string) : PyStr.strip (PyStr.strip s) = PyStr.strip s.
Proof. apply strip_by_idem. Qed.

Lemma endswith_true_suffix (suffix s : string) :
  PyStr.endswith suffix s = true <->
  exists before : string, s = (before ++ suffix)%string.
Proof.
  induction s as [|c s IH]; cbn [PyStr.endswith].
  - rewrite orb_false_r, String.eqb_eq. split.
    + intros ->. now exists EmptyString.
    + intros [[|b0 b] Hb]; [now simpl in Hb|discriminate].
  - rewrite orb_true_iff, String.eqb_eq, IH. split.
    + intros [->|[b Hb]]; [now exists EmptyString|].
      exists (String c b). simpl. now rewrite Hb.
    + intros [[|b0 b] Hb]; [left; now simpl in Hb|].
      right. exists b. simpl in Hb. congruence.
Qed.

Lemma parse_display_icon_Some (w : world) (icon : option string) (p : string) :
  _parse_display_icon w icon = Some p ->
  path_exists w p = true /\ PyStr.endswith ".exe" (PyStr.lower p) = true.
Proof.
  unfold _parse_display_icon. destruct icon as [i|]; [|discriminate].
  destruct (negb (PyStr.nonempty i)); [discriminate|].
  set (raw := expandvars w _).
  destruct (PyStr.endswith ".exe" (PyStr.lower raw)) eqn:He; [|discriminate].
  destruct (path_exists w raw) eqn:Hp; [|discriminate].
  cbn [andb]. intros [= <-]. now split.
Qed.

Lemma registry_result_shape (w : world) (r : app) :
  In r (registry_result w) ->
  sources r = ["registry"]
  /\ app_id r = None
  /\ PyStr.strip (name r) = name r
  /\ forall p : string,
      exe_path r = Some p ->
      path_exists w p = true
      /\ exists stem : string, PyStr.lower p = (stem ++ ".exe")%string.
Proof.
  intros Hin. unfold registry_result in Hin.
  destruct (winreg_loaded w && is_win32 w); [|contradiction].
  apply in_flat_map in Hin. destruct Hin as (k & _ & Hin).
  unfold registry_found in Hin.
  destruct (open_uninstall w (fst k) (snd k)) as [entries|]; [|contradiction].
  apply in_flat_map in Hin. destruct Hin as (entry & _ & Hin).
  unfold registry_entry in Hin.
  destruct entry as [sk|]; [|contradiction].
  destruct (_reg_get sk "DisplayName") as [n|]; [|contradiction].
  destruct (PyStr.nonempty n); [|contradiction].
  destruct Hin as [<-|[]]. cbn [sources app_id name exe_path].
  split; [reflexivity|]. split; [reflexivity|].
  split; [apply strip_idem|].
  intros p Hp. apply parse_display_icon_Some in Hp.
  destruct Hp as [Hex Hend]. split; [exact Hex|].
  now apply endswith_true_suffix.
Qed.

(** X6.  Every record the registry collector returns is tagged registry
    alone, has no app id, has a name without whitespace around it, and has
    either no path or a path that exists and ends in [.exe] whatever the
    case of its letters.  The collector never raises and leaves the cache
    alone. *)
Theorem registry_records (w : world) (c : cache) :
  exists found : list app,
    value_of (_get_registry_apps w c) = Ok found
    /\ cache_of (_get_registry_apps w c) = c
    /\ forall r : app,
        In r found ->
        sources r = ["registry"]
        /\ app_id r = None
        /\ PyStr.strip (name r) = name r
        /\ forall p : string,
            exe_path r = Some p ->
            path_exists w p = true
            /\ exists stem : string, PyStr.lower p = (stem ++ ".exe")%string.
Proof.
  rewrite registry_apps_run. exists (registry_result w).
  split; [reflexivity|]. split; [reflexivity|].
  apply registry_result_shape.
Qed.

Lemma start_items_shape (items : list json_item) (found : list app) :
  start_items items = Ok found ->
  forall r : app,
    In r found ->
    sources r = ["startapps"]
    /\ exe_path r = None /\ version r = None
    /\ publisher r = None /\ install_location r = None
    /\ PyStr.strip (name r) = name r
    /\ exists id : string, app_id r = Some id /\ PyStr.strip id = id.
Proof.
  revert found. induction items as [|item items IH]; intros found.
  - intros [= <-] r [].
  - cbn [start_items]. destruct item as [kv|type_name]; [|discriminate].
    destruct (start_items items) as [rest|e]; [|discriminate].
    specialize (IH rest eq_refl).
    destruct (kv_get "Name" kv) as [n|];
      [|intros [= <-]; exact IH].
    destruct (kv_get "AppID" kv) as [a|];
      [|intros [= <-]; exact IH].
    destruct (PyStr.nonempty n && PyStr.nonempty a);
      [|intros [= <-]; exact IH].
    intros [= <-] r [<-|Hin]; [|now apply IH].
    cbn [sources exe_path version publisher install_location name app_id].
    repeat (split; [reflexivity|]).
    split; [apply strip_idem|].
    exists (PyStr.strip a). split; [reflexivity|apply strip_idem].
Qed.

Lemma start_result_shape (w : world) (found : list app) :
  start_result w = Ok found ->
  forall r : app,
    In r found ->
    sources r = ["startapps"]
    /\ exe_path r = None /\ version r = None
    /\ publisher r = None /\ install_location r = None
    /\ PyStr.strip (name r) = name r
    /\ exists id : string, app_id r = Some id /\ PyStr.strip id = id.
Proof.
  intros Hrun. unfold start_result, start_outcome in Hrun.
  destruct (is_win32 w); [|injection Hrun as <-; intros r []].
  destruct (subprocess_run w powershell_cmd) as [result|e]; [|discriminate].
  destruct (negb (returncode result =? 0));
    [injection Hrun as <-; intros r []|].
  destruct (negb (PyStr.nonempty (PyStr.strip (stdout result))));
    [injection Hrun as <-; intros r []|].
  destruct (json_loads w (PyStr.strip (stdout result))) as [[kv|items|]|];
    try (injection Hrun as <-; intros r []).
  - now apply (start_items_shape [ItemDict kv]).
  - now apply (start_items_shape items).
Qed.

(** X7.  Every record the Start Menu collector returns is tagged startapps
    alone, has an app id and a name without whitespace around them, and
    has no path, version, publisher or install location.  The collector
    leaves the cache alone. *)
Theorem start_records (w : world) (c : cache) (found : list app) :
  value_of (_get_start_apps w c) = Ok found ->
  cache_of (_get_start_apps w c) = c
  /\ forall r : app,
      In r found ->
      sources r = ["startapps"]
      /\ exe_path r = None /\ version r = None
      /\ publisher r = None /\ install_location r = None
      /\ PyStr.strip (name r) = name r
      /\ exists id : string, app_id r = Some id /\ PyStr.strip id = id.
Proof.
  rewrite start_apps_run. unfold value_of, cache_of. cbn [fst snd].
  intros Hrun. split; [reflexivity|].
  now apply (start_result_shape w).
Qed.

Lemma start_records_witness :
  cache_of (_get_start_apps foo_world _APP_CACHE) = _APP_CACHE
  /\ forall r : app,
      In r [foo_start] ->
      sources r = ["startapps"]
      /\ exe_path r = None /\ version r = None
      /\ publisher r = None /\ install_location r = None
      /\ PyStr.strip (name r) = name r
      /\ exists id : string, app_id r = Some id /\ PyStr.strip id = id.
Proof.
  apply (start_records foo_world _APP_CACHE [foo_start]). reflexivity.
Defined.

(** X8.  The failures the Start Menu collector is told of give an empty
    list and no exception: on Windows, when PowerShell ends with a code
    other than 0, prints nothing but whitespace, prints what [json.loads]
    rejects, or prints JSON that is neither an object nor an array, the
    collector has run PowerShell once and returns the empty list. *)
Theorem start_apps_absorbs_failure (w : world) (c : cache)
    (result : completed) :
  is_win32 w = true ->
  subprocess_run w powershell_cmd = Ok result ->
  returncode result <> 0
  \/ PyStr.strip (stdout result) = EmptyString
  \/ json_loads w (PyStr.strip (stdout result)) = None
  \/ json_loads w (PyStr.strip (stdout result)) = Some DocOther ->
  _get_start_apps w c = ([EvRun powershell_cmd], c, Ok []).
Proof.
  intros Hwin Hrun Hfail. rewrite start_apps_run.
  unfold start_events, start_result. rewrite Hwin.
  now rewrite (start_failure_signalled w result Hrun Hfail).
Qed.

Lemma start_apps_absorbs_failure_witness :
  _get_start_apps registry_only_world _APP_CACHE
  = ([EvRun powershell_cmd], _APP_CACHE, Ok []).
Proof.
  apply (start_apps_absorbs_failure registry_only_world _APP_CACHE
           (mkCompleted 1 "")).
  - reflexivity.
  - reflexivity.
  - left. discriminate.
Defined.

(** ** Every record of a snapshot is tagged *)

Lemma merge_apps_tagged (a b : app) :
  tagged a -> tagged b -> tagged (_merge_apps a b).
Proof.
  unfold tagged. rewrite merge_apps_sources.
  intros [Ha|[Ha|Ha]] [Hb|[Hb|Hb]]; rewrite Ha, Hb; cbn; tauto.
Qed.

Lemma dedupe_step_tagged (d : list (string * app)) (a : app) :
  Forall (fun kv => tagged (snd kv)) d -> tagged a ->
  Forall (fun kv => tagged (snd kv)) (dedupe_step d a).
Proof.
  intros Hd Ha. unfold dedupe_step.
  destruct (dict_get (_normalize_name (name a)) d) as [e|] eqn:Hget.
  - apply dict_set_Forall; [|exact Hd]. cbn [snd].
    apply merge_apps_tagged; [|exact Ha].
    apply dict_get_In in Hget. rewrite Forall_forall in Hd.
    exact (Hd _ Hget).
  - now apply dict_set_Forall.
Qed.

Lemma build_snapshot_tagged (collected : list app) :
  Forall tagged collected -> Forall tagged (build_snapshot collected).
Proof.
  intros Hc. unfold build_snapshot.
  assert (Hd : Forall (fun kv => tagged (snd kv)) (dedupe collected)).
  { unfold dedupe.
    assert (Hgen : forall l d,
               Forall tagged l -> Forall (fun kv => tagged (snd kv)) d ->
               Forall (fun kv => tagged (snd kv)) (fold_left dedupe_step l d)).
    { induction l as [|a l IH]; intros d Hl Hd0; [exact Hd0|].
      inversion Hl; subst. cbn [fold_left]. apply IH; [assumption|].
      now apply dedupe_step_tagged. }
    apply Hgen; [exact Hc|constructor]. }
  apply Forall_forall. intros r Hin.
  apply (Permutation_in _ (sorted_by_perm _ _)) in Hin.
  apply in_map_iff in Hin. destruct Hin as (kv & <- & Hin).
  rewrite Forall_forall in Hd. exact (Hd kv Hin).
Qed.

Lemma tagged_one (a : app) (tag : string) :
  sources a = [tag] -> tag = "registry" \/ tag = "startapps" -> tagged a.
Proof.
  intros Hs [-> | ->]; unfold tagged; tauto.
Qed.

Lemma held_tagged (c : cache) : held c -> Forall tagged (apps c).
Proof.
  induction 1 as [|w refresh c Hc IH]; [constructor|].
  rewrite get_all_apps_run.
  destruct (cache_hit refresh (time_time w) c); [exact IH|].
  destruct (start_result w) as [started|e] eqn:Hstart; [|exact IH].
  cbn [cache_of fst snd apps]. apply build_snapshot_tagged.
  apply Forall_app. split; apply Forall_forall; intros r Hin.
  - destruct (start_result_shape w started Hstart r Hin) as [Hs _].
    apply (tagged_one r "startapps"); auto.
  - destruct (registry_result_shape w r Hin) as [Hs _].
    apply (tagged_one r "registry"); auto.
Qed.

Lemma get_all_apps_tagged (w : world) (refresh : bool) (c : cache)
    (all : list app) :
  held c ->
  value_of (_get_all_apps w refresh c) = Ok all ->
  Forall tagged all.
Proof.
  intros Hc Hrun.
  pose proof (held_tagged _ (held_after w refresh c Hc)) as Hafter.
  now rewrite (get_all_apps_cached w refresh c all Hrun) in Hafter.
Qed.

Lemma tagged_listed (r : app) : tagged r -> listed_app "" true true r = true.
Proof.
  unfold tagged, listed_app. intros [H|[H|H]]; now rewrite H.
Qed.

Lemma filter_all {A} (f : A -> bool) (l : list A) :
  Forall (fun x => f x = true) l -> filter f l = l.
Proof.
  induction 1 as [|x l Hx Hl IH]; simpl; [reflexivity|].
  now rewrite Hx, IH.
Qed.

(** X9.  The sources of every record of a snapshot that [_get_all_apps]
    returns are registry alone, startapps alone, or registry followed by
    startapps.  So a listing with no arguments hides nothing: it returns
    the whole snapshot when that has at most 200 records. *)
Theorem default_listing_is_snapshot (w : world) (c : cache) (all : list app) :
  held c ->
  value_of (_get_all_apps w false c) = Ok all ->
  (List.length all <= 200)%nat ->
  Forall tagged all
  /\ value_of (list_installed_apps w no_arguments c)
     = Ok (PApps (List.length all) (utc_isoformat w) all).
Proof.
  intros Hc Hrun Hlen.
  pose proof (get_all_apps_tagged w false c all Hc Hrun) as Htag.
  split; [exact Htag|].
  unfold list_installed_apps. cbn [no_arguments arg_query arg_limit
    arg_include_registry arg_include_start_apps arg_refresh
    str_or limit_or flag_or].
  change (PyStr.casefold (PyStr.strip "")) with "".
  destruct (_get_all_apps w false c) as [[ev c'] r] eqn:Hg.
  unfold value_of in Hrun. cbn [snd] in Hrun. subst r.
  unfold bind. rewrite Hg. unfold ret, value_of. cbn [snd].
  rewrite filter_all.
  - rewrite firstn_all2; [reflexivity|].
    change (Z.to_nat (Z.max 1 200)) with 200%nat. exact Hlen.
  - eapply Forall_impl; [|exact Htag]. intros r. apply tagged_listed.
Qed.

Lemma default_listing_is_snapshot_witness :
  Forall tagged [foo_merged]
  /\ value_of (list_installed_apps foo_world no_arguments _APP_CACHE)
     = Ok (PApps 1 (utc_isoformat foo_world) [foo_merged]).
Proof.
  apply (default_listing_is_snapshot foo_world _APP_CACHE [foo_merged]).
  - exact held_initial.
  - reflexivity.
  - simpl. lia.
Defined.

(** ** The runs of [launch_app] *)

Lemma launch_match_run (w : world) (m : app) (c : cache) :
  launch_match w m c
  = if truthy (app_id m) then
      ([EvPopen (apps_folder (str_or (app_id m) "")) None], c,
       Ok match popen_fails w (apps_folder (str_or (app_id m) "")) None with
          | None =>
              PLaunched [("name", name m); ("method", "startapps");
                         ("app_id", str_or (app_id m) "")]
          | Some e => PError ("Failed to launch AppID: " ++ e)%string
          end)
    else if truthy (exe_path m) && path_exists w (str_or (exe_path m) "") then
      ([EvPopen [str_or (exe_path m) ""]
          (Some (path_parent w (str_or (exe_path m) "")))], c,
       Ok match popen_fails w [str_or (exe_path m) ""]
                  (Some (path_parent w (str_or (exe_path m) ""))) with
          | None =>
              PLaunched [("name", name m); ("method", "exe");
                         ("exe_path", str_or (exe_path m) "")]
          | Some e => PError ("Failed to launch exe: " ++ e)%string
          end)
    else ([], c, Ok (PError no_method_error)).
Proof.
  unfold launch_match.
  destruct (truthy (app_id m)).
  - unfold bind. rewrite popen_run.
    now destruct (popen_fails w _ None).
  - destruct (truthy (exe_path m) && path_exists w (str_or (exe_path m) ""));
      [|reflexivity].
    unfold bind. rewrite popen_run.
    now destruct (popen_fails w _ (Some _)).
Qed.

Lemma launch_app_run (w : world) (args : arguments) (c : cache) :
  launch_app w args c
  = let id := PyStr.strip (str_or (arg_app_id args) "") in
    let name_value := PyStr.strip (str_or (arg_name args) "") in
    let got := _get_all_apps w (flag_or (arg_refresh args) false) c in
    if negb (PyStr.nonempty id) && negb (PyStr.nonempty name_value) then
      ([], c, Ok (PError "Provide name or app_id."))
    else if PyStr.nonempty id then
      ([EvPopen (apps_folder id) None], c,
       Ok match popen_fails w (apps_folder id) None with
          | None => PLaunched [("app_id", id); ("method", "startapps")]
          | Some e => PError ("Failed to launch AppID: " ++ e)%string
          end)
    else
      match value_of got with
      | Raise e => (events_of got, cache_of got, Raise e)
      | Ok all =>
          match find_matches (flag_or (arg_exact args) false)
                  (_normalize_name name_value) all with
          | [] =>
              (events_of got, cache_of got,
               Ok (PError
                     ("No apps found matching '" ++ name_value ++ "'.")%string))
          | [m] =>
              (events_of got ++ events_of (launch_match w m (cache_of got)),
               cache_of got,
               value_of (launch_match w m (cache_of got)))
          | m :: m' :: more =>
              (events_of got, cache_of got,
               Ok (PErrorMatches ambiguous_error
                     (map summary (firstn 10 (m :: m' :: more)))))
          end
      end.
Proof.
  cbv zeta. unfold launch_app.
  destruct (negb (PyStr.nonempty (PyStr.strip (str_or (arg_app_id args) "")))
            && negb (PyStr.nonempty (PyStr.strip (str_or (arg_name args) ""))));
    [reflexivity|].
  destruct (PyStr.nonempty (PyStr.strip (str_or (arg_app_id args) ""))).
  - unfold bind. rewrite popen_run. now destruct (popen_fails w _ None).
  - destruct (_get_all_apps w (flag_or (arg_refresh args) false) c)
      as [[ev c'] [all|e]] eqn:Hrun;
      unfold bind; rewrite Hrun; unfold events_of, cache_of, value_of;
      cbn [fst snd]; [|reflexivity].
    destruct (find_matches _ _ all) as [|m [|m' more]]; unfold ret.
    + now rewrite app_nil_r.
    + cbn [List.length Nat.ltb Nat.leb]. rewrite launch_match_run.
      destruct (truthy (app_id m)); [reflexivity|].
      now destruct (truthy (exe_path m) && path_exists w _).
    + cbn [List.length Nat.ltb Nat.leb]. now rewrite app_nil_r.
Qed.

Lemma launches_app {A B} (r1 : list event * cache * outcome A)
    (r2 : list event * cache * outcome B) (c : cache) (v : outcome B) :
  launches (events_of r1 ++ events_of r2, c, v)
  = launches r1 ++ launches r2.
Proof. unfold launches, events_of. cbn [fst]. apply filter_app. Qed.

Lemma launch_match_launches (w : world) (m : app) (c : cache) :
  (List.length (launches (launch_match w m c)) <= 1)%nat.
Proof.
  rewrite launch_match_run.
  destruct (truthy (app_id m)); [simpl; lia|].
  destruct (truthy (exe_path m) && path_exists w _); simpl; lia.
Qed.

Lemma list_installed_apps_run (w : world) (args : arguments) (c : cache) :
  events_of (list_installed_apps w args c)
  = events_of (_get_all_apps w (flag_or (arg_refresh args) false) c)
  /\ cache_of (list_installed_apps w args c)
     = cache_of (_get_all_apps w (flag_or (arg_refresh args) false) c)
  /\ match value_of (_get_all_apps w (flag_or (arg_refresh args) false) c) with
     | Raise e => value_of (list_installed_apps w args c) = Raise e
     | Ok _ => exists n listed,
         value_of (list_installed_apps w args c)
         = Ok (PApps n (utc_isoformat w) listed)
     end.
Proof.
  unfold list_installed_apps.
  destruct (_get_all_apps w (flag_or (arg_refresh args) false) c)
    as [[ev c'] [all|e]] eqn:Hrun;
    unfold bind; rewrite Hrun; unfold events_of, cache_of, value_of, ret;
    cbn [fst snd].
  - rewrite app_nil_r. repeat split. eauto.
  - repeat split.
Qed.

(** X10.  One call of [call_tool] starts at most one process besides the
    collectors' PowerShell, and a call for another tool than [launch_app]
    starts none. *)
Theorem at_most_one_launch (w : world) (tool : string) (args : arguments)
    (c : cache) :
  (List.length (launches (call_tool w tool args c)) <= 1)%nat
  /\ (tool <> "launch_app" -> launches (call_tool w tool args c) = []).
Proof.
  unfold call_tool.
  destruct (negb (sys_platform w =? "win32")%string); [split; simpl; auto|].
  destruct (String.eqb_spec tool "list_installed_apps") as [->|Hlist].
  - assert (H : launches (list_installed_apps w args c) = []).
    { unfold launches.
      rewrite (proj1 (list_installed_apps_run w args c)).
      apply get_all_apps_no_launch. }
    rewrite H. split; simpl; auto.
  - destruct (String.eqb_spec tool "launch_app") as [->|Hlaunch];
      [|split; simpl; auto].
    split; [|congruence].
    rewrite launch_app_run. cbv zeta.
    destruct (negb _ && negb _); [simpl; lia|].
    destruct (PyStr.nonempty _); [simpl; lia|].
    pose proof (get_all_apps_no_launch w (flag_or (arg_refresh args) false) c)
      as Hnone.
    destruct (value_of (_get_all_apps w _ c)) as [all|e];
      [|unfold launches in *; cbn [events_of fst] in *; rewrite Hnone;
        simpl; lia].
    destruct (find_matches _ _ all) as [|m [|m' more]].
    + unfold launches in *. cbn [events_of fst] in *. rewrite Hnone.
      simpl. lia.
    + rewrite launches_app, Hnone. apply launch_match_launches.
    + unfold launches in *. cbn [events_of fst] in *. rewrite Hnone.
      simpl. lia.
Qed.





(** X12.  A [launch_app] request by name for which the inventory has no
    candidate is answered with the error that no app matches, quoting the
    stripped name; no process is launched. *)
Theorem no_match (w : world) (args : arguments) (c : cache)
    (all : list app) :
  blank (arg_app_id args) = true ->
  blank (arg_name args) = false ->
  value_of (_get_all_apps w (flag_or (arg_refresh args) false) c) = Ok all ->
  find_matches (flag_or (arg_exact args) false)
    (_normalize_name (PyStr.strip (str_or (arg_name args) ""))) all = [] ->
  value_of (launch_app w args c)
  = Ok (PError ("No apps found matching '"
                ++ PyStr.strip (str_or (arg_name args) "") ++ "'.")%string)
  /\ launches (launch_app w args c) = []
  /\ cache_of (launch_app w args c)
     = cache_of (_get_all_apps w (flag_or (arg_refresh args) false) c).
Proof.
  intros Hid Hname Hall Hnone.
  rewrite (launch_app_by_name w args c all Hid Hname Hall). cbv zeta.
  rewrite Hnone. split; [reflexivity|]. split; [|reflexivity].
  unfold launches. cbn [events_of fst]. apply get_all_apps_no_launch.
Qed.

Lemma no_match_witness :
  value_of (launch_app foo_world (launch_by_name " bar ") _APP_CACHE)
  = Ok (PError "No apps found matching 'bar'.")
  /\ launches (launch_app foo_world (launch_by_name " bar ") _APP_CACHE) = []
  /\ cache_of (launch_app foo_world (launch_by_name " bar ") _APP_CACHE)
     = cache_of (_get_all_apps foo_world false _APP_CACHE).
Proof.
  apply (no_match foo_world (launch_by_name " bar ") _APP_CACHE [foo_merged]);
    reflexivity.
Defined.

Lemma str_append_nil (s : string) : (s ++ "")%string = s.
Proof. induction s as [|c s IH]; simpl; [reflexivity|now rewrite IH]. Qed.

Lemma prefix_refl (s : string) : String.prefix s s = true.
Proof. apply prefix_iff. exists EmptyString. now rewrite str_append_nil. Qed.

Lemma contains_refl (s : string) : PyStr.contains s s = true.
Proof.
  destruct s; cbn [PyStr.contains]; now rewrite prefix_refl.
Qed.

Lemma filter_two {A} (f : A -> bool) (l : list A) (a b : A) :
  In a l -> In b l -> a <> b -> f a = true -> f b = true ->
  (2 <= List.length (filter f l))%nat.
Proof.
  intros Ha Hb Hab Hfa Hfb.
  assert (Hina : In a (filter f l)) by (apply filter_In; auto).
  assert (Hinb : In b (filter f l)) by (apply filter_In; auto).
  destruct (filter f l) as [|x [|y l']].
  - destruct Hina.
  - destruct Hina as [<-|[]], Hinb as [<-|[]]. contradiction.
  - simpl. lia.
Qed.

(** X13.  The substring match does not prefer an exact match.  Every
    record an exact request finds is found by the substring request for
    the same name; and when the snapshot has a record of exactly the
    requested name and another record whose name contains it, the request
    without [exact] launches nothing and is answered with the error of an
    ambiguous match. *)
Theorem substring_match_no_preference (w : world) (args : arguments)
    (c : cache) (all : list app) (a b : app) :
  blank (arg_app_id args) = true ->
  blank (arg_name args) = false ->
  flag_or (arg_exact args) false = false ->
  value_of (_get_all_apps w (flag_or (arg_refresh args) false) c) = Ok all ->
  In a all -> In b all -> a <> b ->
  key_of a = _normalize_name (PyStr.strip (str_or (arg_name args) "")) ->
  PyStr.contains
    (_normalize_name (PyStr.strip (str_or (arg_name args) "")))
    (key_of b) = true ->
  (forall r : app,
      In r (find_matches true
              (_normalize_name (PyStr.strip (str_or (arg_name args) ""))) all) ->
      In r (find_matches false
              (_normalize_name (PyStr.strip (str_or (arg_name args) ""))) all))
  /\ (exists listed : list option_entry,
         value_of (launch_app w args c)
         = Ok (PErrorMatches ambiguous_error listed)
         /\ (2 <= List.length listed)%nat)
  /\ launches (launch_app w args c) = [].
Proof.
  intros Hid Hname Hexact Hall Ha Hb Hab Hka Hkb.
  set (k := _normalize_name (PyStr.strip (str_or (arg_name args) ""))) in *.
  split; [|].
  - intros r. unfold find_matches. rewrite !filter_In.
    intros [Hin Heq]. apply String.eqb_eq in Heq.
    split; [exact Hin|]. rewrite Heq. apply contains_refl.
  - assert (Hfa : PyStr.contains k (_normalize_name (name a)) = true).
    { fold (key_of a). rewrite Hka. apply contains_refl. }
    pose proof (filter_two
                  (fun x => PyStr.contains k (_normalize_name (name x)))
                  all a b Ha Hb Hab Hfa Hkb) as Htwo.
    rewrite (launch_app_by_name w args c all Hid Hname Hall). cbv zeta.
    rewrite Hexact. fold k. unfold find_matches.
    destruct (filter _ all) as [|m [|m' more]] eqn:Hf;
      [simpl in Htwo; lia|simpl in Htwo; lia|].
    split.
    + exists (map summary (firstn 10 (m :: m' :: more))).
      split; [reflexivity|].
      rewrite length_map, length_firstn. simpl in *. lia.
    + unfold launches. cbn [events_of fst]. apply get_all_apps_no_launch.
Qed.

Lemma substring_match_no_preference_witness :
  (exists listed : list option_entry,
      value_of (launch_app chrome_exact_world (launch_by_name "chrome")
                  _APP_CACHE)
      = Ok (PErrorMatches ambiguous_error listed)
      /\ (2 <= List.length listed)%nat)
  /\ launches (launch_app chrome_exact_world (launch_by_name "chrome")
                 _APP_CACHE) = [].
Proof.
  apply (substring_match_no_preference chrome_exact_world
           (launch_by_name "chrome") _APP_CACHE
           [registry_app "Chrome"; registry_app "Chrome Remote Desktop"]
           (registry_app "Chrome") (registry_app "Chrome Remote Desktop"));
    try reflexivity.
  - now left.
  - right. now left.
  - discriminate.
Defined.

(** X14.  The reply of [launch_app] tells what happened to the process:
    when the reply reports a launch, exactly one process was started and
    creating it did not raise; when creating the one process started did
    raise, the reply is an error that ends with the text of the
    exception. *)
Theorem launch_reply_truthful (w : world) (args : arguments) (c : cache) :
  (forall launched : list (string * string),
      value_of (launch_app w args c) = Ok (PLaunched launched) ->
      exists argv cwd,
        launches (launch_app w args c) = [EvPopen argv cwd]
        /\ popen_fails w argv cwd = None)
  /\ (forall argv cwd e,
         launches (launch_app w args c) = [EvPopen argv cwd] ->
         popen_fails w argv cwd = Some e ->
         exists what : string,
           value_of (launch_app w args c) = Ok (PError (what ++ e)%string)).
Proof.
  rewrite launch_app_run. cbv zeta.
  destruct (negb _ && negb _);
    [split; [discriminate|intros ? ? ?; discriminate]|].
  destruct (PyStr.nonempty _).
  { unfold launches, value_of. cbn [events_of fst snd filter is_launch].
    split.
    - intros launched Hv. do 2 eexists. split; [reflexivity|].
      destruct (popen_fails w _ None); [discriminate|reflexivity].
    - intros argv cwd e [= <- <-] He. rewrite He. eauto. }
  pose proof (get_all_apps_no_launch w (flag_or (arg_refresh args) false) c)
    as Hnone.
  destruct (value_of (_get_all_apps w _ c)) as [all|e0];
    [|split; [discriminate|]; intros argv cwd e Hl;
      unfold launches in *; cbn [events_of fst] in *; congruence].
  destruct (find_matches _ _ all) as [|m [|m' more]];
    try (split; [discriminate|]; intros argv cwd e Hl;
         unfold launches in *; cbn [events_of fst] in *; congruence).
  rewrite launches_app, Hnone. cbn [List.app]. unfold value_of at 1 3.
  cbn [snd]. rewrite launch_match_run.
  destruct (truthy (app_id m)).
  { unfold launches, value_of. cbn [events_of fst snd filter is_launch].
    split.
    - intros launched Hv. do 2 eexists. split; [reflexivity|].
      destruct (popen_fails w _ None); [discriminate|reflexivity].
    - intros argv cwd e [= <- <-] He. rewrite He. eauto. }
  destruct (truthy (exe_path m) && path_exists w _).
  { unfold launches, value_of. cbn [events_of fst snd filter is_launch].
    split.
    - intros launched Hv. do 2 eexists. split; [reflexivity|].
      destruct (popen_fails w _ (Some _)); [discriminate|reflexivity].
    - intros argv cwd e [= <- <-] He. rewrite He. eauto. }
  split; [discriminate|]. intros argv cwd e Hl. discriminate.
Qed.

Lemma launch_reply_truthful_witness :
  exists what : string,
    value_of (launch_app no_spawn_world (launch_by_name "foo") _APP_CACHE)
    = Ok (PError (what ++ "Access is denied")%string).
Proof.
  apply (proj2 (launch_reply_truthful no_spawn_world (launch_by_name "foo")
                  _APP_CACHE)
           ["explorer.exe"; "shell:AppsFolder\AppX"] None);
    reflexivity.
Defined.

(** ** Reading the cache again *)

(** X15.  What a forced refresh returned is what the calls of the next 300
    seconds return: after [_get_all_apps] with [refresh] returned a
    snapshot that is not empty, a call without [refresh] less than 300
    seconds later returns the same snapshot, does nothing to the outside
    and leaves the cell as it is, whatever the collectors would find
    then. *)
Theorem refresh_then_read (w1 w2 : world) (c : cache) (all : list app) :
  value_of (_get_all_apps w1 true c) = Ok all ->
  all <> [] ->
  (time_time w2 - time_time w1 < CACHE_TTL_SECONDS)%Q ->
  _get_all_apps w2 false (cache_of (_get_all_apps w1 true c))
  = ([], mkCache (time_time w1) all, Ok all).
Proof.
  intros Hrun Hne Hage.
  assert (Hfirst : cache_of (_get_all_apps w1 true c)
                   = mkCache (time_time w1) all).
  { rewrite get_all_apps_run in Hrun |- *.
    change (cache_hit true (time_time w1) c) with false in *.
    cbv iota in *.
    destruct (start_result w1) as [started|e]; [|discriminate].
    cbv zeta in *. unfold value_of in Hrun. cbn [snd] in Hrun.
    injection Hrun as Hrun. now rewrite Hrun. }
  rewrite Hfirst, get_all_apps_run.
  now rewrite (proj2 (cache_hit_true false (time_time w2)
                        (mkCache (time_time w1) all))).
Qed.

Lemma refresh_then_read_witness :
  _get_all_apps (at_time 299 quiet_world) false
    (cache_of (_get_all_apps foo_world true _APP_CACHE))
  = ([], mkCache 0 [foo_merged], Ok [foo_merged]).
Proof.
  apply (refresh_then_read foo_world (at_time 299 quiet_world) _APP_CACHE
           [foo_merged]).
  - reflexivity.
  - discriminate.
  - reflexivity.
Defined.

(** ** The order of a listing *)

Lemma StronglySorted_filter {A} (R : A -> A -> Prop) (f : A -> bool)
    (l : list A) :
  StronglySorted R l -> StronglySorted R (filter f l).
Proof.
  induction 1 as [|x l Hs IH Hall]; simpl; [constructor|].
  destruct (f x); [|exact IH].
  constructor; [exact IH|].
  apply Forall_forall. intros y Hy. apply filter_In in Hy.
  rewrite Forall_forall in Hall. now apply Hall.
Qed.

Lemma StronglySorted_firstn {A} (R : A -> A -> Prop) (n : nat) (l : list A) :
  StronglySorted R l -> StronglySorted R (firstn n l).
Proof.
  intros Hs. revert n. induction Hs as [|x l Hs IH Hall]; intros [|n]; simpl;
    try constructor.
  - apply IH.
  - apply Forall_forall. intros y Hy.
    rewrite Forall_forall in Hall. apply Hall.
    rewrite <- (firstn_skipn n l). apply in_or_app. now left.
Qed.

Lemma NoDup_map_filter {A B} (g : A -> B) (f : A -> bool) (l : list A) :
  NoDup (map g l) -> NoDup (map g (filter f l)).
Proof.
  induction l as [|x l IH]; simpl; [auto|].
  intros Hnd. inversion Hnd as [|? ? Hnotin Hnd']; subst.
  destruct (f x); [|now apply IH].
  simpl. constructor; [|now apply IH].
  intros Hin. apply Hnotin. apply in_map_iff in Hin.
  destruct Hin as (y & Hy & Hin). apply filter_In in Hin.
  apply in_map_iff. exists y. tauto.
Qed.

Lemma NoDup_map_firstn {A B} (g : A -> B) (n : nat) (l : list A) :
  NoDup (map g l) -> NoDup (map g (firstn n l)).
Proof.
  revert n. induction l as [|x l IH]; intros n Hnd.
  - now rewrite firstn_nil.
  - destruct n as [|n]; [constructor|]. simpl in *.
    inversion Hnd as [|? ? Hnotin Hnd']; subst.
    constructor; [|now apply IH].
    intros Hin. apply Hnotin. apply in_map_iff in Hin.
    destruct Hin as (y & Hy & Hin). apply in_map_iff. exists y.
    split; [exact Hy|].
    rewrite <- (firstn_skipn n l). apply in_or_app. now left.
Qed.

(** X16.  A listing keeps the order and the keys of the snapshot: whatever
    the arguments, the records [list_installed_apps] returns are in the
    order of their lower-cased names, no two of them have the same key,
    each is a record of the cache cell after the call, and the count in
    the reply is their number. *)
Theorem listing_sorted_distinct (w : world) (args : arguments) (c : cache)
    (n : nat) (stamp : string) (listed : list app) :
  held c ->
  value_of (list_installed_apps w args c) = Ok (PApps n stamp listed) ->
  n = List.length listed
  /\ sorted_by_name listed
  /\ distinct_keys listed
  /\ forall r : app,
      In r listed -> In r (apps (cache_of (list_installed_apps w args c))).
Proof.
  intros Hc Hrun.
  destruct (list_installed_apps_run w args c) as (_ & Hcache & _).
  rewrite Hcache. clear Hcache.
  pose proof (held_snapshot _ (held_after w
                (flag_or (arg_refresh args) false) c Hc)) as [Hd Hs].
  unfold list_installed_apps in Hrun.
  destruct (_get_all_apps w (flag_or (arg_refresh args) false) c)
    as [[ev c'] [all|e]] eqn:Hg;
    unfold bind in Hrun; rewrite Hg in Hrun; [|discriminate].
  assert (Hall : apps c' = all).
  { pose proof (get_all_apps_cached w (flag_or (arg_refresh args) false) c all)
      as H. rewrite Hg in H. now apply H. }
  cbn [cache_of fst snd] in *. rewrite Hall in *.
  unfold ret, value_of in Hrun. cbn [snd] in Hrun.
  injection Hrun as <- _ <-.
  split; [reflexivity|]. split; [|split].
  - now apply StronglySorted_firstn, StronglySorted_filter.
  - now apply NoDup_map_firstn, NoDup_map_filter.
  - intros r Hin.
    assert (Hf : In r (filter
       (listed_app
          (PyStr.casefold (PyStr.strip (str_or (arg_query args) "")))
          (flag_or (arg_include_registry args) true)
          (flag_or (arg_include_start_apps args) true)) all)).
    { rewrite <- (firstn_skipn
                   (Z.to_nat (Z.max 1 (limit_or (arg_limit args) 200)))
                   (filter _ all)).
      apply in_or_app. now left. }
    now apply filter_In in Hf.
Qed.

Lemma listing_sorted_distinct_witness :
  2%nat = List.length
            [registry_app "Chrome Remote Desktop"; registry_app "Google Chrome"]
  /\ sorted_by_name
       [registry_app "Chrome Remote Desktop"; registry_app "Google Chrome"]
  /\ distinct_keys
       [registry_app "Chrome Remote Desktop"; registry_app "Google Chrome"]
  /\ forall r : app,
      In r [registry_app "Chrome Remote Desktop"; registry_app "Google Chrome"]
      -> In r (apps (cache_of
                       (list_installed_apps chrome_world no_arguments
                          _APP_CACHE))).
Proof.
  apply (listing_sorted_distinct chrome_world no_arguments _APP_CACHE 2
           (utc_isoformat chrome_world)).
  - exact held_initial.
  - reflexivity.
Defined.

(** ** The tools announced and the tools served *)

Lemma launch_app_known (w : world) (args : arguments) (c : cache) :
  value_of (launch_app w args c)
  <> Ok (PError ("Unknown tool: " ++ "launch_app")%string).
Proof.
  rewrite launch_app_run. cbv zeta.
  destruct (negb _ && negb _); [discriminate|].
  destruct (PyStr.nonempty _).
  { unfold value_of. cbn [snd].
    destruct (popen_fails w _ None); discriminate. }
  destruct (value_of (_get_all_apps w _ c)) as [all|e]; [|discriminate].
  destruct (find_matches _ _ all) as [|m [|m' more]]; try discriminate.
  unfold value_of at 1. cbn [snd]. rewrite launch_match_run.
  destruct (truthy (app_id m)).
  { unfold value_of. cbn [snd].
    destruct (popen_fails w _ None); discriminate. }
  destruct (truthy (exe_path m) && path_exists w _); [|discriminate].
  unfold value_of. cbn [snd].
  destruct (popen_fails w _ (Some _)); discriminate.
Qed.

(** X17.  The tools [list_tools] announces are the tools [call_tool]
    serves: on Windows a call is answered with the error of an unknown
    tool exactly when its tool name is not the name of an announced
    tool. *)
Theorem announced_tools_served (w : world) (tool : string) (args : arguments)
    (c : cache) :
  is_win32 w = true ->
  value_of (call_tool w tool args c)
  = Ok (PError ("Unknown tool: " ++ tool)%string)
  <-> ~ In tool (map tool_name list_tools).
Proof.
  intros Hwin. unfold call_tool. unfold is_win32 in Hwin. rewrite Hwin.
  cbn [negb list_tools map tool_name In].
  destruct (String.eqb_spec tool "list_installed_apps") as [->|Hlist].
  - split; [|tauto]. intros Hv. exfalso.
    destruct (list_installed_apps_run w args c) as (_ & _ & Hcases).
    destruct (value_of (_get_all_apps w _ c)).
    + destruct Hcases as (n & listed & Hl). congruence.
    + congruence.
  - destruct (String.eqb_spec tool "launch_app") as [->|Hlaunch].
    + split; [|tauto]. intros Hv. exfalso.
      exact (launch_app_known w args c Hv).
    + split; [|reflexivity]. intros _ [H|[H|[]]]; congruence.
Qed.

Lemma announced_tools_served_witness :
  value_of (call_tool foo_world "uninstall_app" no_arguments _APP_CACHE)
  = Ok (PError "Unknown tool: uninstall_app")
  <-> ~ In "uninstall_app" (map tool_name list_tools).
Proof.
  apply (announced_tools_served foo_world "uninstall_app" no_arguments
           _APP_CACHE).
  reflexivity.
Defined.

(** ** A snapshot built again *)

Lemma sorted_by_fixed {A} (key : A -> string) (l : list A) :
  StronglySorted (key_le key) l -> sorted_by key l = l.
Proof.
  induction 1 as [|x l Hs IH Hall]; [reflexivity|].
  cbn [sorted_by fold_right]. fold (sorted_by key l). rewrite IH.
  destruct l as [|y l']; [reflexivity|]. cbn [insert_by].
  inversion Hall as [|? ? Hxy _]; subst. unfold key_le, str_le in Hxy.
  now rewrite Hxy.
Qed.

Lemma dict_get_notin (k : string) (d : list (string * app)) :
  ~ In k (map fst d) -> dict_get k d = None.
Proof.
  induction d as [|[k' v] d IH]; simpl; [reflexivity|].
  intros Hnotin. destruct (String.eqb_spec k' k); [tauto|].
  apply IH. tauto.
Qed.

Lemma dict_set_absent (k : string) (v : app) (d : list (string * app)) :
  ~ In k (map fst d) -> dict_set k v d = d ++ [(k, v)].
Proof.
  induction d as [|[k' v'] d IH]; simpl; [reflexivity|].
  intros Hnotin. destruct (String.eqb_spec k' k); [tauto|].
  rewrite IH; [reflexivity|tauto].
Qed.

Lemma fold_dedupe_distinct (l : list app) (d : list (string * app)) :
  NoDup (map fst d ++ map key_of l) ->
  fold_left dedupe_step l d = d ++ map (fun a => (key_of a, a)) l.
Proof.
  revert d. induction l as [|a l IH]; intros d Hnd; simpl.
  - now rewrite app_nil_r.
  - assert (Hnotin : ~ In (key_of a) (map fst d)).
    { intros Hin. apply NoDup_remove_2 in Hnd. apply Hnd.
      apply in_or_app. now left. }
    unfold dedupe_step at 2. fold (key_of a).
    rewrite (dict_get_notin _ _ Hnotin), (dict_set_absent _ _ _ Hnotin).
    rewrite IH.
    + now rewrite <- app_assoc.
    + rewrite map_app, <- app_assoc. exact Hnd.
Qed.

Lemma build_snapshot_fixed (snapshot : list app) :
  distinct_keys snapshot -> sorted_by_name snapshot ->
  build_snapshot snapshot = snapshot.
Proof.
  intros Hd Hs. unfold build_snapshot, dedupe.
  rewrite fold_dedupe_distinct by exact Hd.
  cbn [List.app]. rewrite map_map. cbn [snd]. rewrite map_id.
  now apply sorted_by_fixed.
Qed.

(** X18.  Building a snapshot from the records of a snapshot gives the
    same snapshot: nothing is merged and nothing moves. *)
Theorem build_snapshot_idempotent (collected : list app) :
  build_snapshot (build_snapshot collected) = build_snapshot collected.
Proof.
  apply build_snapshot_fixed.
  - apply build_snapshot_distinct.
  - apply build_snapshot_sorted.
Qed.

(** ** Icon paths *)

Lemma rstrip_by_keep (f : ascii -> bool) (a : string) (c : ascii) (b : string) :
  f c = false ->
  PyStr.rstrip_by f (a ++ String c b)%string
  = (a ++ String c (PyStr.rstrip_by f b))%string.
Proof.
  intros Hc. induction a as [|x a IH]; simpl.
  - destruct (PyStr.rstrip_by f b); [now rewrite Hc|reflexivity].
  - rewrite IH. now destruct a.
Qed.

Lemma strip_by_fixed (f : ascii -> bool) (s : string) :
  s <> EmptyString -> PyStr.strip_by f s = s ->
  (exists c s', s = String c s' /\ f c = false)
  /\ PyStr.rstrip_by f s = s.
Proof.
  unfold PyStr.strip_by. intros Hne Hfix.
  destruct (PyStr.lstrip_by f s) as [|c t] eqn:Hl.
  - simpl in Hfix. congruence.
  - pose proof (lstrip_by_head f s c t Hl) as Hc.
    destruct (rstrip_by_head f c t Hc) as [u Hu].
    rewrite Hu in Hfix. subst s. split; [now exists c, u|].
    cbn [PyStr.lstrip_by] in Hl. rewrite Hc in Hl.
    rewrite <- Hl in Hu at 1. exact Hu.
Qed.

Lemma no_comma_head (c : ascii) (s : string) :
  PyStr.contains "," (String c s) = false ->
  Ascii.eqb c ","%char = false /\ PyStr.contains "," s = false.
Proof.
  cbn [PyStr.contains String.prefix].
  destruct (Ascii.ascii_dec ","%char c) as [<-|Hne].
  - now destruct s.
  - intros H. split; [|exact H]. apply Ascii.eqb_neq. congruence.
Qed.

Lemma before_comma_app (a b : string) :
  PyStr.contains "," a = false ->
  PyStr.before_comma (a ++ String ","%char b)%string = a.
Proof.
  induction a as [|c a IH]; intros Hno; [reflexivity|].
  apply no_comma_head in Hno. destruct Hno as [Hc Ha].
  simpl. now rewrite Hc, IH.
Qed.

Lemma contains_comma_app (a b : string) :
  PyStr.contains "," (a ++ String ","%char b)%string = true.
Proof. apply contains_iff. now exists a, b. Qed.

Lemma no_comma_quote (p : string) :
  PyStr.contains "," p = false ->
  PyStr.contains "," (p ++ String PyStr.dquote EmptyString)%string = false.
Proof.
  induction p as [|c p IH]; intros Hno; [reflexivity|].
  apply no_comma_head in Hno. destruct Hno as [Hc Hp].
  specialize (IH Hp). cbn [append PyStr.contains String.prefix] in *.
  rewrite IH. destruct (Ascii.ascii_dec ","%char c) as [<-|Hne];
    [now rewrite Ascii.eqb_refl in Hc|reflexivity].
Qed.

(** X19.  An icon value of the registry may quote the path and may carry
    an icon index after a comma; both are ignored.  For a path that is not
    empty, has no comma and has neither whitespace nor a quote at either
    end, the values [path,index] and ["path",index] are read as the bare
    path is, whatever the index. *)
Theorem parse_display_icon_index (w : world) (p idx : string) :
  p <> EmptyString ->
  PyStr.strip p = p ->
  PyStr.strip_quotes p = p ->
  PyStr.contains "," p = false ->
  _parse_display_icon w (Some (p ++ String ","%char idx)%string)
  = _parse_display_icon w (Some p)
  /\ _parse_display_icon w
       (Some (String PyStr.dquote (p ++ String PyStr.dquote EmptyString)
              ++ String ","%char idx)%string)
     = _parse_display_icon w (Some p).
Proof.
  intros Hne Hsp Hq Hno.
  destruct (strip_by_fixed PyStr.isspace p Hne Hsp)
    as [(c & p' & Hp & Hc) Hrs].
  destruct (strip_by_fixed (fun x => Ascii.eqb x PyStr.dquote) p Hne Hq)
    as [(c' & p'' & Hp' & Hc') Hrq].
  assert (Hcc : c' = c) by congruence. subst c'.
  assert (Hbare : _parse_display_icon w (Some p)
                  = if PyStr.endswith ".exe" (PyStr.lower (expandvars w p))
                       && path_exists w (expandvars w p)
                    then Some (expandvars w p) else None).
  { unfold _parse_display_icon.
    rewrite (proj2 (nonempty_true p) Hne). cbn [negb].
    now rewrite Hsp, Hq, Hno. }
  rewrite Hbare. unfold _parse_display_icon. split.
  - assert (Hn : PyStr.nonempty (p ++ String ","%char idx) = true)
      by (rewrite Hp; reflexivity).
    rewrite Hn. cbn [negb].
    assert (H1 : PyStr.strip (p ++ String ","%char idx)
                 = (p ++ String ","%char (PyStr.rstrip_by PyStr.isspace idx))%string).
    { unfold PyStr.strip, PyStr.strip_by. rewrite Hp at 1.
      cbn [append PyStr.lstrip_by]. rewrite Hc.
      change (String c (p' ++ String ","%char idx))%string
        with (String c p' ++ String ","%char idx)%string.
      rewrite <- Hp. now apply rstrip_by_keep. }
    rewrite H1.
    assert (H2 : PyStr.strip_quotes
                   (p ++ String ","%char (PyStr.rstrip_by PyStr.isspace idx))
                 = (p ++ String ","%char
                      (PyStr.rstrip_by (fun x => Ascii.eqb x PyStr.dquote)
                         (PyStr.rstrip_by PyStr.isspace idx)))%string).
    { unfold PyStr.strip_quotes, PyStr.strip_by. rewrite Hp at 1.
      cbn [append PyStr.lstrip_by]. rewrite Hc'.
      change (String c (p' ++ String ","%char ?x))%string
        with (String c p' ++ String ","%char x)%string.
      rewrite <- Hp. now apply rstrip_by_keep. }
    rewrite H2, contains_comma_app, before_comma_app by exact Hno.
    now rewrite Hsp, Hq.
  - cbn [PyStr.nonempty String.eqb append negb].
    set (q := PyStr.dquote).
    set (pq := (p ++ String q EmptyString)%string).
    assert (Hpq : pq = String c (p' ++ String q EmptyString)%string)
      by (unfold pq; now rewrite Hp).
    assert (H1 : PyStr.strip (String q (pq ++ String ","%char idx))
                 = String q (pq ++ String ","%char
                               (PyStr.rstrip_by PyStr.isspace idx))%string).
    { unfold PyStr.strip, PyStr.strip_by. cbn [PyStr.lstrip_by].
      change (PyStr.isspace q) with false. cbv iota.
      change (String q (pq ++ String ","%char idx))%string
        with (String q pq ++ String ","%char idx)%string.
      now rewrite rstrip_by_keep. }
    rewrite H1.
    assert (H2 : PyStr.strip_quotes
                   (String q (pq ++ String ","%char
                                (PyStr.rstrip_by PyStr.isspace idx)))
                 = (pq ++ String ","%char
                      (PyStr.rstrip_by (fun x => Ascii.eqb x PyStr.dquote)
                         (PyStr.rstrip_by PyStr.isspace idx)))%string).
    { unfold PyStr.strip_quotes, PyStr.strip_by. cbn [PyStr.lstrip_by].
      change (Ascii.eqb q PyStr.dquote) with true. cbv iota.
      rewrite Hpq at 1. cbn [append PyStr.lstrip_by]. rewrite Hc'.
      change (String c ((p' ++ String q EmptyString) ++ String ","%char ?x))%string
        with (String c (p' ++ String q EmptyString) ++ String ","%char x)%string.
      rewrite <- Hpq. now apply rstrip_by_keep. }
    rewrite H2, contains_comma_app.
    rewrite before_comma_app by (now apply no_comma_quote).
    assert (H3 : PyStr.strip pq = pq).
    { unfold PyStr.strip, PyStr.strip_by. rewrite Hpq at 1.
      cbn [PyStr.lstrip_by]. rewrite Hc. rewrite <- Hpq. unfold pq.
      now rewrite rstrip_by_keep. }
    rewrite H3.
    assert (H4 : PyStr.strip_quotes pq = p).
    { unfold PyStr.strip_quotes, PyStr.strip_by. rewrite Hpq at 1.
      cbn [PyStr.lstrip_by]. rewrite Hc'. rewrite <- Hpq. unfold pq.
      rewrite rstrip_by_pad by reflexivity. exact Hrq. }
    now rewrite H4.
Qed.

Lemma parse_display_icon_index_witness :
  _parse_display_icon foo_world (Some "C:\foo.exe,0")
  = _parse_display_icon foo_world (Some "C:\foo.exe")
  /\ _parse_display_icon foo_world
       (Some (String PyStr.dquote ("C:\foo.exe" ++ String PyStr.dquote EmptyString)
              ++ ",0")%string)
     = _parse_display_icon foo_world (Some "C:\foo.exe").
Proof.
  apply (parse_display_icon_index foo_world "C:\foo.exe" "0").
  - discriminate.
  - reflexivity.
  - reflexivity.
  - reflexivity.
Defined.

(** ** A name of blanks *)

Lemma lower_nonempty (s : string) :
  s <> EmptyString -> PyStr.lower s <> EmptyString.
Proof. destruct s; [congruence|discriminate]. Qed.

Lemma name_key_nonempty (v : option string) :
  blank v = false ->
  _normalize_name (PyStr.strip (str_or v "")) <> EmptyString.
Proof.
  intros Hb. unfold _normalize_name, PyStr.casefold.
  rewrite strip_idem. apply lower_nonempty.
  intros H. apply blank_stripped in H. congruence.
Qed.

(** X20.  A display name of blanks gets through the registry collector:
    the test for an empty name comes before the name is stripped, so the
    record built has the empty name.  No [launch_app] request by name can
    select a record with the empty name, with or without [exact]: the key
    of a requested name is never empty. *)
Theorem blank_display_name (w : world) (sk : subkey) (n : string)
    (args : arguments) (exact : bool) (all : list app) :
  _reg_get sk "DisplayName" = Some n ->
  n <> EmptyString ->
  all_chars PyStr.isspace n = true ->
  blank (arg_name args) = false ->
  (exists r : app, registry_entry w (Some sk) = [r] /\ name r = EmptyString)
  /\ forall r : app,
      name r = EmptyString ->
      ~ In r (find_matches exact
                (_normalize_name (PyStr.strip (str_or (arg_name args) "")))
                all).
Proof.
  intros Hget Hne Hblank Hname. split.
  - unfold registry_entry. rewrite Hget.
    rewrite (proj2 (nonempty_true n) Hne).
    eexists. split; [reflexivity|]. cbn [name].
    now apply strip_by_empty.
  - intros r Hr Hin.
    pose proof (name_key_nonempty _ Hname) as Hkey.
    set (k := _normalize_name (PyStr.strip (str_or (arg_name args) ""))) in *.
    unfold find_matches in Hin.
    destruct exact; apply filter_In in Hin; destruct Hin as [_ Hm];
      rewrite Hr in Hm; change (_normalize_name "") with "" in Hm.
    + apply String.eqb_eq in Hm. congruence.
    + destruct k; [congruence|discriminate].
Qed.

Lemma blank_display_name_witness :
  (exists r : app,
      registry_entry foo_world (Some (named_subkey "  ")) = [r]
      /\ name r = EmptyString)
  /\ forall r : app,
      name r = EmptyString ->
      ~ In r (find_matches false
                (_normalize_name
                   (PyStr.strip (str_or (arg_name (launch_by_name "foo")) "")))
                [registry_app ""; registry_app "Foo"]).
Proof.
  apply (blank_display_name foo_world (named_subkey "  ") "  "
           (launch_by_name "foo") false
           [registry_app ""; registry_app "Foo"]).
  - reflexivity.
  - discriminate.
  - reflexivity.
  - reflexivity.
Defined.
